(** * STOCK-AI: the paper-trading ledger and the prediction retrieval pipeline

    A shallow embedding of the client-side ledger handlers
    ([handleTrade] of [StockPredictionWidget.tsx], [handlePortfolioTrade]
    of [DemoTrading.tsx]) and of the prediction fetch
    ([stockApi.predict] and [fetchPrediction]), followed by the
    properties of the specification that concern them.  Around these,
    the tables of the demo page ([getAvgPrice], [getMarketPrice]), the
    watchlist ([checkWatchlist], [addToWatchlist], [handleRemoveStock]),
    the chart ([StockPredictionChart]) and the form of the widget
    ([handleSubmit]), with further properties of the code.

    Conventions of the embedding.
    - A JavaScript number is a value of [num]: an exact rational, one of
      the two infinities, or NaN.  Rounding, overflow and the sign of zero
      are not modelled.
    - Share quantities are integers ([Z]); they come out of [parseInt].
    - The text stored under a [localStorage] key is represented by what
      the platform parsers ([parseFloat], [JSON.parse]) read from it, see
      [stored]. *)

From Stdlib Require Import QArith Lqa ZArith Lia Ascii String.
From stdpp Require Import base list strings.

Open Scope Z_scope.

(** ** JavaScript numbers *)

Module JS.

Inductive num : Type :=
| Fin (q : Q)
| PInf
| NInf
| NaN.

Definition of_Z (z : Z) : num := Fin (inject_Z z).

Definition Qlt_bool (a b : Q) : bool := negb (Qle_bool b a).

(** [a + b] *)
Definition add (a b : num) : num :=
  match a, b with
  | NaN, _ | _, NaN => NaN
  | Fin x, Fin y => Fin (x + y)
  | PInf, NInf | NInf, PInf => NaN
  | PInf, _ | _, PInf => PInf
  | NInf, _ | _, NInf => NInf
  end.

(** unary minus *)
Definition neg (a : num) : num :=
  match a with
  | Fin x => Fin (- x)
  | PInf => NInf
  | NInf => PInf
  | NaN => NaN
  end.

(** [a - b] *)
Definition sub (a b : num) : num := add a (neg b).

(** sign of a number that is not NaN: [Lt], [Eq] or [Gt] against zero *)
Definition sign (a : num) : comparison :=
  match a with
  | Fin x => Qcompare x 0
  | PInf => Gt
  | NInf => Lt
  | NaN => Eq
  end.

(** [a * b] *)
Definition mul (a b : num) : num :=
  match a, b with
  | NaN, _ | _, NaN => NaN
  | Fin x, Fin y => Fin (x * y)
  | _, _ =>
      match sign a, sign b with
      | Eq, _ | _, Eq => NaN
      | Gt, Gt | Lt, Lt => PInf
      | Gt, Lt | Lt, Gt => NInf
      end
  end.

(** [a < b]; every comparison with NaN is false *)
Definition lt (a b : num) : bool :=
  match a, b with
  | NaN, _ | _, NaN => false
  | Fin x, Fin y => Qlt_bool x y
  | NInf, NInf | PInf, _ => false
  | NInf, _ => true
  | Fin _, PInf => true
  | Fin _, NInf => false
  end.

(** [a > b] *)
Definition gt (a b : num) : bool := lt b a.

(** [!a] is false for every number but [0] and NaN *)
Definition truthy (a : num) : bool :=
  match a with
  | Fin x => negb (Qeq_bool x 0)
  | PInf | NInf => true
  | NaN => false
  end.

(** [isFinite] *)
Definition finite (a : num) : bool :=
  match a with Fin _ => true | _ => false end.


(** Equality of numbers up to the representation of the rational. *)
Definition same (a b : num) : Prop :=
  match a, b with
  | Fin x, Fin y => (x == y)%Q
  | PInf, PInf | NInf, NInf | NaN, NaN => True
  | _, _ => False
  end.

(** *** [parseInt(s, 10)] *)

(** White space that [parseInt] skips, for the ASCII range. *)
Definition is_white (c : ascii) : bool :=
  let n := nat_of_ascii c in
  ((9 <=? n)%nat && (n <=? 13)%nat) || (n =? 32)%nat.

Fixpoint trim_start (s : string) : string :=
  match s with
  | String c r => if is_white c then trim_start r else s
  | EmptyString => s
  end.

Definition digit_of (c : ascii) : option Z :=
  let n := Z.of_nat (nat_of_ascii c) in
  if (48 <=? n) && (n <=? 57) then Some (n - 48) else None.

(** The value of the longest prefix of decimal digits; [acc] is the
    value read so far, [None] while no digit was seen. *)
Fixpoint digits (acc : option Z) (s : string) : option Z :=
  match s with
  | String c r =>
      match digit_of c with
      | Some d => digits (Some (10 * default 0 acc + d)) r
      | None => acc
      end
  | EmptyString => acc
  end.

(** [parseInt(s, 10)]; [None] stands for NaN. *)
Definition parseInt (s : string) : option Z :=
  match trim_start s with
  | String "-" r => Z.opp <$> digits None r
  | String "+" r => digits None r
  | r => digits None r
  end.

(** *** Strings *)

Definition upper (c : ascii) : ascii :=
  let n := nat_of_ascii c in
  if (97 <=? n)%nat && (n <=? 122)%nat then ascii_of_nat (n - 32) else c.

(** [s.toUpperCase()], for the ASCII range. *)
Fixpoint toUpperCase (s : string) : string :=
  match s with
  | String c r => String (upper c) (toUpperCase r)
  | EmptyString => EmptyString
  end.

(** [s.includes(t)] *)
Fixpoint includes (t s : string) : bool :=
  String.prefix t s ||
  match s with
  | String _ r => includes t r
  | EmptyString => false
  end.

End JS.

(** ** The persistence substrate *)

Module Storage.

Import JS.

(** What [localStorage.getItem] returns for one key, with the text
    represented by its reading: [Reads a] is a text that the parser of
    the record ([parseFloat] for the balance, [JSON.parse] for the two
    arrays) reads as [a], [Junk] is a non-empty text that the parser
    cannot read.  A text that [JSON.parse] reads as a value of another
    shape than the record's is not represented. *)
Inductive stored (A : Type) : Type :=
| Null
| Empty
| Reads (a : A)
| Junk.
Arguments Null {A}.
Arguments Empty {A}.
Arguments Reads {A} a.
Arguments Junk {A}.

(** [x || d]: [null] and the empty string are falsy. *)
Definition or_else {A} (x d : stored A) : stored A :=
  match x with
  | Null | Empty => d
  | _ => x
  end.

(** [parseFloat(text)] never throws; it is NaN on what it cannot read. *)
Definition parseFloat (x : stored num) : num :=
  match x with
  | Reads n => n
  | _ => NaN
  end.

(** [JSON.parse(text)]; [None] stands for the [SyntaxError] it throws. *)
Definition JSON_parse {A} (x : stored A) : option A :=
  match x with
  | Reads a => Some a
  | _ => None
  end.

End Storage.


(** ** The ledger *)

Module Ledger.

Import JS Storage.

(** The [type] of a trade. *)
Inductive side : Type := BUY | SELL.

(** A portfolio entry [{ ticker, quantity }]. *)
Record holding : Type := Holding {
  h_ticker : string;
  h_quantity : Z
}.

(** A transaction record [{ ticker, type, quantity, price, timestamp }]
    as JSON holds it: [JSON.stringify] writes [null] for a price that is
    not finite, here [None]. *)
Record transaction : Type := Transaction {
  tx_ticker : string;
  tx_type : side;
  tx_quantity : Z;
  tx_price : option Q;
  tx_timestamp : string
}.

(** What [JSON.stringify] followed by [JSON.parse] makes of a number. *)
Definition json_number (n : num) : option Q :=
  match n with
  | Fin q => Some q
  | _ => None
  end.

(** The three records of the ledger in [localStorage]. *)
Record localStorage : Type := LocalStorage {
  balance_item : stored num;
  portfolio_item : stored (list holding);
  transactions_item : stored (list transaction)
}.

(** [localStorage.setItem('balance', balance.toString())] *)
Definition setItem_balance (b : num) (ls : localStorage) : localStorage :=
  {| balance_item := Reads b;
     portfolio_item := portfolio_item ls;
     transactions_item := transactions_item ls |}.

(** [localStorage.setItem('portfolio', JSON.stringify(portfolio))] *)
Definition setItem_portfolio (p : list holding) (ls : localStorage) : localStorage :=
  {| balance_item := balance_item ls;
     portfolio_item := Reads p;
     transactions_item := transactions_item ls |}.

(** [localStorage.setItem('transactions', JSON.stringify(transactions))] *)
Definition setItem_transactions (t : list transaction) (ls : localStorage) : localStorage :=
  {| balance_item := balance_item ls;
     portfolio_item := portfolio_item ls;
     transactions_item := Reads t |}.

(** The [StockPrediction] record of the front end's types, as
    [fetchPrediction] builds it. *)
Record StockPrediction : Type := Prediction {
  p_ticker : string;
  p_current_price : num;
  p_prediction_dates : list string;
  p_prediction_prices : list num;
  p_confidence : num
}.

(** The messages of the [alert] calls. *)
Inductive alert : Type :=
| InvalidQuantity
| NoPriceInfo
| CannotSellMore (owned : Z)
| InsufficientBalance (have need : num)
| OrderPlaced (type : side) (quantity : Z) (ticker : string)
| FailedToSaveTransaction.

(** How a handler ends: silently, after an [alert], or by throwing. *)
Inductive outcome : Type :=
| Quiet
| Alerted (a : alert)
| Thrown.

(** [portfolio.findIndex((item) => item.ticker === ticker)]; [None] is [-1]. *)
Definition findIndex (tkr : string) (portfolio : list holding) : option nat :=
  fst <$> list_find (fun item => h_ticker item = tkr) portfolio.

(** [idx >= 0 ? portfolio[idx].quantity : 0] *)
Definition quantity_at (portfolio : list holding) (idx : option nat) : Z :=
  match idx with
  | Some i => default 0 (h_quantity <$> portfolio !! i)
  | None => 0
  end.

(** [portfolio[idx].quantity += d] on the entry at [i]. *)
Definition add_quantity (d : Z) (i : nat) (portfolio : list holding) : list holding :=
  alter (fun item => Holding (h_ticker item) (h_quantity item + d)) i portfolio.

(** [portfolio[idx].quantity -= quantity;
     if (portfolio[idx].quantity === 0) portfolio.splice(idx, 1)] *)
Definition take_quantity (quantity : Z) (i : nat) (portfolio : list holding) : list holding :=
  let portfolio := add_quantity (- quantity) i portfolio in
  if quantity_at portfolio (Some i) =? 0 then delete i portfolio else portfolio.

(** [if (!qtyStr) return]: a cancelled prompt and an empty answer end
    the handler. *)
Definition answered (qtyStr : option string) : option string :=
  match qtyStr with
  | Some EmptyString | None => None
  | Some s => Some s
  end.

(** *** [handleTrade] of the prediction widget

    [prediction] is the component's state, [qtyStr] what [window.prompt]
    returns and [now] the reading of the clock. *)
Definition handleTrade (prediction : option StockPrediction) (type : side)
    (qtyStr : option string) (now : string) (ls : localStorage)
  : outcome * localStorage :=
  match prediction with
  | None => (Quiet, ls)
  | Some prediction =>
  match answered qtyStr with
  | None => (Quiet, ls)
  | Some qtyStr =>
  match parseInt qtyStr with
  | None => (Alerted InvalidQuantity, ls)
  | Some quantity =>
  if quantity <=? 0 then (Alerted InvalidQuantity, ls) else
  let portfolio :=
    match JSON_parse (or_else (portfolio_item ls) (Reads [])) with
    | Some p => p
    | None => []
    end in
  let idx := findIndex (p_ticker prediction) portfolio in
  let currentQty := quantity_at portfolio idx in
  let balance := parseFloat (or_else (balance_item ls) (Reads (Fin 1000000))) in
  let totalValue := mul (p_current_price prediction) (of_Z quantity) in
  let traded :=
    match type with
    | SELL =>
        if quantity >? currentQty then inl (CannotSellMore currentQty)
        else inr (add balance totalValue,
                  match idx with
                  | Some i => take_quantity quantity i portfolio
                  | None => portfolio
                  end)
    | BUY =>
        if gt totalValue balance then inl (InsufficientBalance balance totalValue)
        else inr (sub balance totalValue,
                  match idx with
                  | Some i => add_quantity quantity i portfolio
                  | None => portfolio ++ [Holding (p_ticker prediction) quantity]
                  end)
    end in
  match traded with
  | inl message => (Alerted message, ls)
  | inr (balance, portfolio) =>
      let ls := setItem_portfolio portfolio ls in
      let ls := setItem_balance balance ls in
      let transaction :=
        Transaction (p_ticker prediction) type quantity
                    (json_number (p_current_price prediction)) now in
      match JSON_parse (or_else (transactions_item ls) (Reads [])) with
      | Some existing =>
          (Alerted (OrderPlaced type quantity (p_ticker prediction)),
           setItem_transactions (existing ++ [transaction]) ls)
      | None => (Alerted FailedToSaveTransaction, ls)
      end
  end
  end
  end
  end.

(** The effect that initialises the balance when the widget mounts. *)
Definition initBalance (ls : localStorage) : localStorage :=
  match balance_item ls with
  | Null => setItem_balance (Fin 1000000) ls
  | _ => ls
  end.

(** *** [DemoTrading] *)

(** The three [useState] cells of the component. *)
Record DemoState : Type := Demo {
  st_balance : num;
  st_portfolio : list holding;
  st_transactions : list transaction
}.

(** The mount effect; [None] when one of the [JSON.parse] calls throws. *)
Definition load (ls : localStorage) : option DemoState :=
  let balance := parseFloat (or_else (balance_item ls) (Reads (Fin 1000000))) in
  match JSON_parse (or_else (portfolio_item ls) (Reads [])) with
  | None => None
  | Some portfolio =>
      match JSON_parse (or_else (transactions_item ls) (Reads [])) with
      | None => None
      | Some transactions => Some (Demo balance portfolio transactions)
      end
  end.

(** [updateAll]: the new state goes to the component and to the store. *)
Definition updateAll (newBalance : num) (newPortfolio : list holding)
    (newTransactions : list transaction) : DemoState * localStorage :=
  (Demo newBalance newPortfolio newTransactions,
   LocalStorage (Reads newBalance) (Reads newPortfolio) (Reads newTransactions)).

(** [[...transactions].reverse().find((tx) => tx.ticker === ticker)] *)
Definition lastTx (tkr : string) (transactions : list transaction) : option transaction :=
  snd <$> list_find (fun tx => tx_ticker tx = tkr) (reverse transactions).

(** [lastTx ? lastTx.price : 0], kept only when it is truthy: [null] and
    [0] are not. *)
Definition known_price (tkr : string) (transactions : list transaction) : option Q :=
  let price := match lastTx tkr transactions with
               | Some tx => tx_price tx
               | None => Some 0%Q
               end in
  match price with
  | Some p => if Qeq_bool p 0 then None else Some p
  | None => None
  end.

(** [handlePortfolioTrade].  The entries of [newPortfolio] are the
    objects of [portfolio] (the copy is shallow), so the update of a
    quantity is also seen through the old array; every path after the
    update ends in [updateAll], which replaces that array. *)
Definition handlePortfolioTrade (tkr : string) (type : side)
    (qtyStr : option string) (now : string) (st : DemoState) (ls : localStorage)
  : outcome * DemoState * localStorage :=
  match answered qtyStr with
  | None => (Quiet, st, ls)
  | Some qtyStr =>
  match parseInt qtyStr with
  | None => (Alerted InvalidQuantity, st, ls)
  | Some quantity =>
  if quantity <=? 0 then (Alerted InvalidQuantity, st, ls) else
  match known_price tkr (st_transactions st) with
  | None => (Alerted NoPriceInfo, st, ls)
  | Some price =>
  let newBalance := st_balance st in
  let newPortfolio := st_portfolio st in
  let idx := findIndex tkr newPortfolio in
  let currentQty := quantity_at newPortfolio idx in
  let traded :=
    match type with
    | SELL =>
        if quantity >? currentQty then inl (Alerted (CannotSellMore currentQty))
        else
          match idx with
          | Some i => inr (add newBalance (mul (Fin price) (of_Z quantity)),
                           take_quantity quantity i newPortfolio)
          | None => inl Thrown
          end
    | BUY =>
        let totalCost := mul (Fin price) (of_Z quantity) in
        if gt totalCost newBalance
        then inl (Alerted (InsufficientBalance newBalance totalCost))
        else inr (sub newBalance totalCost,
                  match idx with
                  | Some i => add_quantity quantity i newPortfolio
                  | None => newPortfolio ++ [Holding tkr quantity]
                  end)
    end in
  match traded with
  | inl stop => (stop, st, ls)
  | inr (newBalance, newPortfolio) =>
      let newTx := Transaction tkr type quantity (Some price) now in
      let newTransactions := st_transactions st ++ [newTx] in
      let '(st, ls) := updateAll newBalance newPortfolio newTransactions in
      (Alerted (OrderPlaced type quantity tkr), st, ls)
  end
  end
  end
  end.

(** *** The pages

    The widget lives on the dashboard and watchlist pages and reads the
    store at every trade; [DemoTrading] has a route of its own, loads the
    store when it mounts and trades on its component state. *)
Record world : Type := World {
  store : localStorage;
  demo : option DemoState
}.

Inductive action : Type :=
| OpenWidget
| OpenDemo
| CloseDemo
| WidgetTrade (prediction : option StockPrediction) (type : side)
              (qtyStr : option string) (now : string)
| DemoTrade (tkr : string) (type : side) (qtyStr : option string) (now : string).

Definition step (a : action) (w : world) : world :=
  match a with
  | OpenWidget => World (initBalance (store w)) (demo w)
  | OpenDemo => World (store w) (load (store w))
  | CloseDemo => World (store w) None
  | WidgetTrade prediction type qtyStr now =>
      World (snd (handleTrade prediction type qtyStr now (store w))) (demo w)
  | DemoTrade tkr type qtyStr now =>
      match demo w with
      | Some st =>
          let '(_, st, ls) := handlePortfolioTrade tkr type qtyStr now st (store w) in
          World ls (Some st)
      | None => w
      end
  end.

Fixpoint run (acts : list action) (w : world) : world :=
  match acts with
  | [] => w
  | a :: rest => run rest (step a w)
  end.

(** Nothing stored yet, no page open. *)
Definition seed_store : localStorage := LocalStorage Null Null Null.
Definition seed : world := World seed_store None.

(** The snapshot that a reader of the store sees. *)
Definition cash (ls : localStorage) : num :=
  parseFloat (or_else (balance_item ls) (Reads (Fin 1000000))).

Definition holdings (ls : localStorage) : option (list holding) :=
  JSON_parse (or_else (portfolio_item ls) (Reads [])).

Definition history (ls : localStorage) : option (list transaction) :=
  JSON_parse (or_else (transactions_item ls) (Reads [])).

(** *** Notions of the specification *)

(** The rejection reasons of the specification and the alert that stands
    for each. *)
Inductive RejectionReason : Type :=
| InvalidRequest
| InsufficientFunds
| InsufficientHoldings.

Definition rejection (o : outcome) : option RejectionReason :=
  match o with
  | Alerted InvalidQuantity | Alerted NoPriceInfo => Some InvalidRequest
  | Alerted (InsufficientBalance _ _) => Some InsufficientFunds
  | Alerted (CannotSellMore _) => Some InsufficientHoldings
  | _ => None
  end.

(** The quantity held of a ticker, [0] when the portfolio has no entry
    for it: the handlers' [currentQty]. *)
Definition held (tkr : string) (portfolio : list holding) : Z :=
  quantity_at portfolio (findIndex tkr portfolio).

Definition signed (tx : transaction) : Z :=
  match tx_type tx with
  | BUY => tx_quantity tx
  | SELL => - tx_quantity tx
  end.

(** BUY quantities minus SELL quantities over the records of a ticker. *)
Fixpoint net (tkr : string) (transactions : list transaction) : Z :=
  match transactions with
  | [] => 0
  | tx :: rest =>
      (if decide (tx_ticker tx = tkr) then signed tx else 0) + net tkr rest
  end.

(** One entry per ticker, no entry at zero or below, and every holding
    is the net of the transactions of its ticker. *)
Definition consistent (st : DemoState) : Prop :=
  NoDup (h_ticker <$> st_portfolio st) /\
  Forall (fun item => 0 < h_quantity item) (st_portfolio st) /\
  forall tkr, held tkr (st_portfolio st) = net tkr (st_transactions st).



(** The snapshot after an accepted trade. *)
Definition settled (tkr : string) (type : side) (quantity : Z) (price : num)
    (now : string) (st : DemoState) : DemoState :=
  let value := mul price (of_Z quantity) in
  let idx := findIndex tkr (st_portfolio st) in
  Demo
    (match type with
     | BUY => sub (st_balance st) value
     | SELL => add (st_balance st) value
     end)
    (match type, idx with
     | BUY, Some i => add_quantity quantity i (st_portfolio st)
     | BUY, None => st_portfolio st ++ [Holding tkr quantity]
     | SELL, Some i => take_quantity quantity i (st_portfolio st)
     | SELL, None => st_portfolio st
     end)
    (st_transactions st ++ [Transaction tkr type quantity (json_number price) now]).

(** The checks that an accepted trade has passed. *)
Definition allowed (tkr : string) (type : side) (quantity : Z) (price : num)
    (st : DemoState) : Prop :=
  0 < quantity /\
  match type with
  | BUY => gt (mul price (of_Z quantity)) (st_balance st) = false
  | SELL => quantity <= held tkr (st_portfolio st)
  end.

(** The store that holds a snapshot. *)
Definition written (st : DemoState) : localStorage :=
  LocalStorage (Reads (st_balance st)) (Reads (st_portfolio st))
               (Reads (st_transactions st)).

(** The answer to the prompt is a positive integer. *)
Definition positive_quantity (qtyStr : option string) : Prop :=
  exists quantity, answered qtyStr ≫= parseInt = Some quantity /\ 0 < quantity.


(** The order that a handler reports as placed, if it does. *)
Definition placed (o : outcome) : option (side * Z * string) :=
  match o with
  | Alerted (OrderPlaced type quantity tkr) => Some (type, quantity, tkr)
  | _ => None
  end.



(** The price that a widget trade quotes satisfies [fit]. *)
Definition quoting (fit : num -> Prop) (a : action) : Prop :=
  match a with
  | WidgetTrade (Some p) _ _ _ => fit (p_current_price p)
  | _ => True
  end.

(** A ledger invariant holds of the store and of the mounted component. *)
Definition everywhere (I : DemoState -> Prop) (w : world) : Prop :=
  (exists st, load (store w) = Some st /\ I st) /\
  (forall st, demo w = Some st -> I st).

(** The stored text is missing or empty. *)
Definition absent {A} (x : stored A) : Prop := x = Null \/ x = Empty.

(** The trades of the scenarios: ten shares bought at 2,500 through the
    widget, then sold there at 2,600. *)
Definition shown (tkr : string) (price : num) : option StockPrediction :=
  Some (Prediction tkr price [] [] (Fin 0)).

Definition scenarioA (tkr : string) : list action :=
  [OpenWidget; WidgetTrade (shown tkr (Fin 2500)) BUY (Some "10") "t1"].

Definition scenarioC (tkr : string) : list action :=
  scenarioA tkr ++ [WidgetTrade (shown tkr (Fin 2600)) SELL (Some "10") "t2"].

End Ledger.

(** ** The prediction pipeline *)

Module Prediction.

Import JS Ledger.

(** The body of a response of [GET /api/predict/:ticker], read through
    the [PredictionApiResponse] interface.  Each field is either missing
    ([undefined] or [null], here [None]) or has its declared type. *)
Record PredictionApiResponse : Type := Response {
  raw_ticker : option string;
  raw_current_price : option num;
  raw_prediction_dates : option (list string);
  raw_prediction_prices : option (list num);
  raw_predicted_prices : option (list num);
  raw_confidence : option num
}.

(** [a || b] on two optional arrays: an array, even an empty one, is truthy. *)
Definition or_array {A} (a b : option (list A)) : option (list A) :=
  match a with
  | Some _ => a
  | None => b
  end.

(** [data.prediction_prices || data.predicted_prices || []] *)
Definition chosen_prices (data : PredictionApiResponse) : list num :=
  default [] (or_array (raw_prediction_prices data) (raw_predicted_prices data)).

(** [data.ticker || symbol]: the empty string is falsy. *)
Definition ticker_or (t : option string) (symbol : string) : string :=
  match t with
  | Some EmptyString | None => symbol
  | Some s => s
  end.

(** The confidence rule of [fetchPrediction]:
    [if (confidence === undefined || confidence === null) confidence = 0;
     else if (confidence < 1) confidence = confidence * 100]. *)
Definition normalize_confidence (confidence : option num) : num :=
  match confidence with
  | None => Fin 0
  | Some c => if lt c (Fin 1) then mul c (Fin 100) else c
  end.

(** The object literal [normalizedData]. *)
Definition normalizedData (symbol : string) (data : PredictionApiResponse)
    (prices : list num) (confidence : num) : StockPrediction :=
  {| p_ticker := ticker_or (raw_ticker data) symbol;
     p_current_price := default (Fin 0) (raw_current_price data);
     p_prediction_dates := default [] (raw_prediction_dates data);
     p_prediction_prices := prices;
     p_confidence := confidence |}.

(** The messages that [fetchPrediction] passes to [setError]. *)
Inductive message : Type :=
| InvalidData (symbol : string)
| NoPredictionPoints (symbol : string)
| SymbolNotFound (symbol : string)
| CannotPredict (symbol : string) (why : string)
| FailedToFetch (symbol : string) (why : string).

(** The checks and the normalisation that [fetchPrediction] applies to
    the answer of the full request. *)
Definition normalize (symbol : string) (data : PredictionApiResponse)
  : message + StockPrediction :=
  if (negb (bool_decide (is_Some (raw_prediction_prices data)))
      && negb (bool_decide (is_Some (raw_predicted_prices data))))
     || negb (bool_decide (is_Some (raw_prediction_dates data)))
     || negb (bool_decide (is_Some (raw_current_price data)))
  then inl (InvalidData symbol)
  else
    let prices := chosen_prices data in
    if (length prices =? 0)%nat
       || (length (default [] (raw_prediction_dates data)) =? 0)%nat
    then inl (NoPredictionPoints symbol)
    else inr (normalizedData symbol data prices
                             (normalize_confidence (raw_confidence data))).

(** [arr && arr.length > 0] *)
Definition nonempty {A} (arr : option (list A)) : bool :=
  match arr with
  | Some (_ :: _) => true
  | _ => false
  end.

(** The same for the answer of the simplified request; [None] when the
    answer is not taken. *)
Definition normalize_simplified (symbol : string) (data : PredictionApiResponse)
  : option StockPrediction :=
  if nonempty (raw_prediction_prices data) || nonempty (raw_predicted_prices data)
  then Some (normalizedData symbol data (chosen_prices data)
                            (normalize_confidence (raw_confidence data)))
  else None.

(** *** The client: [stockApi.predict] *)

(** What a rejected request carries: [message], [response?.status] and
    [response?.data?.message]. *)
Record error : Type := Error {
  e_message : string;
  e_status : option Z;
  e_detail : option string
}.

Record request : Type := Get {
  g_ticker : string;
  g_exchange : string;
  g_simplify : bool;
  g_timeout : Z
}.

Inductive reply : Type :=
| Replied (data : option PredictionApiResponse)
| Rejected (err : error).

Inductive event : Type :=
| Sent (r : request)
| Slept (ms : Z).

(** The requests sent so far and the log of what the client did. *)
Record net : Type := Net {
  sent : nat;
  log : list event
}.

Definition M (A : Type) : Type := net -> A * net.

#[global] Instance M_ret : MRet M := fun A a s => (a, s).

#[global] Instance M_bind : MBind M :=
  fun A B k c s => let '(a, s) := c s in k a s.

(** [new Promise(resolve => setTimeout(resolve, ms))] *)
Definition sleep (ms : Z) : M unit :=
  fun s => (tt, Net (sent s) (log s ++ [Slept ms])).

(** [value || 0] on an optional number *)
Definition or_zero (value : option num) : num :=
  match value with
  | Some n => if truthy n then n else Fin 0
  | None => Fin 0
  end.

(** The object [predictionData] that [predict] returns. *)
Definition predictionData (tkr : string) (data : PredictionApiResponse)
  : PredictionApiResponse :=
  {| raw_ticker := Some (ticker_or (raw_ticker data) tkr);
     raw_current_price := raw_current_price data;
     raw_prediction_dates := Some (default [] (raw_prediction_dates data));
     raw_prediction_prices := Some (chosen_prices data);
     raw_predicted_prices := None;
     raw_confidence := Some (or_zero (raw_confidence data)) |}.

(** The body of the [try] of [predict] once the request has settled:
    [inl] is what is thrown to the [catch] of the loop. *)
Definition received (tkr : string) (response : reply)
  : error + PredictionApiResponse :=
  match response with
  | Replied (Some data) => inr (predictionData tkr data)
  | Replied None => inl (Error "No data received from server" None None)
  | Rejected err => inl err
  end.

Section Client.

(** The service: the reply to the [n]-th request. *)
Variable server : nat -> request -> reply.

(** [api.get('/api/predict/' + ticker, ...)] *)
Definition api_get (r : request) : M reply :=
  fun s => (server (sent s) r, Net (S (sent s)) (log s ++ [Sent r])).

(** The loop of [predict], entered with [retries] retries left. *)
Fixpoint attempts (retries : nat) (tkr exchange : string) (simplify : bool)
  : M (error + PredictionApiResponse) :=
  response ← api_get (Get tkr exchange simplify (if simplify then 5000 else 15000));
  match received tkr response with
  | inr predictionData => mret (inr predictionData)
  | inl err =>
      match retries with
      | O => mret (inl err)
      | S retries => sleep (2000 * (3 - Z.of_nat retries)) ;;
                     attempts retries tkr exchange simplify
      end
  end.

(** [stockApi.predict(ticker, exchange, simplify)]; [inl] is the error
    it throws. *)
Definition predict (tkr exchange : string) (simplify : bool)
  : M (error + PredictionApiResponse) :=
  attempts 2 tkr exchange simplify.

(** *** [fetchPrediction] *)

Definition usStocks : list string :=
  ["AAPL"; "MSFT"; "AMZN"; "GOOG"; "GOOGL"; "META"; "TSLA"; "NVDA"; "JPM";
   "JNJ"; "WMT"; "V"; "PG"; "MA"; "UNH"; "HD"; "BAC"; "DIS"; "PYPL"; "ADBE";
   "CRM"; "NFLX"; "INTC"; "CSCO"].

(** The cells of the widget that the fetch sets. *)
Record view : Type := View {
  prediction : option StockPrediction;
  error_shown : option message
}.

(** The message for an error that ends the fetch. *)
Definition failure (symbol : string) (err : error) : message :=
  match e_status err with
  | Some 404 => SymbolNotFound symbol
  | Some 400 => CannotPredict symbol (default "Bad request" (answered (e_detail err)))
  | _ => FailedToFetch symbol
           (default "Please try a different stock or try again later."
                    (answered (Some (e_message err))))
  end.

(** [fetchPrediction(symbol)].  The eight-second timer of the source
    only sets the error text while the request is pending: what it throws
    is thrown in the timer's own task and reaches no handler here.  What
    [predict] returns is an object, so the [!data] tests never fire. *)
Definition fetchPrediction (symbol : string) (v : view) : M view :=
  match symbol with
  | EmptyString => mret v
  | _ =>
      let exchange :=
        if bool_decide (toUpperCase symbol ∈ usStocks) then "" else "NSE" in
      data ← predict symbol exchange false;
      match data with
      | inr data =>
          match normalize symbol data with
          | inr normalizedData => mret (View (Some normalizedData) None)
          | inl why => mret (View None (Some why))
          end
      | inl err =>
          retried ←
            (if includes "timeout" (e_message err) then
               data ← predict symbol "NSE" true;
               match data with
               | inr data => mret (normalize_simplified symbol data)
               | inl retryErr => mret None
               end
             else mret None);
          match retried with
          | Some normalizedData => mret (View (Some normalizedData) None)
          | None => mret (View None (Some (failure symbol err)))
          end
      end
  end.

End Client.

(** *** Notions of the specification *)

(** The requests of a log, in the order they were sent. *)
Definition requests (l : list event) : list request :=
  omap (fun e => match e with Sent r => Some r | Slept _ => None end) l.

(** The simplified requests among them. *)
Definition simplified (l : list event) : list request :=
  filter (fun r => g_simplify r = true) (requests l).

(** Nothing sent yet. *)
Definition idle : net := Net 0 [].

(** The error of a request that ran into its timeout. *)
Definition timed_out (r : request) : error :=
  Error (if g_simplify r then "timeout of 5000ms exceeded"
         else "timeout of 15000ms exceeded") None None.

(** A service that answers no request in time. *)
Definition silent (n : nat) (r : request) : reply := Rejected (timed_out r).

(** Payloads and services of the examples. *)


(** A payload with two dates and one price. *)
Definition uneven : PredictionApiResponse :=
  Response (Some "TCS") (Some (Fin 100)) (Some ["2025-01-01"; "2025-01-02"])
           (Some [Fin 101]) None (Some (Fin 82)).

(** A payload as the service sends it. *)
Definition forecast : PredictionApiResponse :=
  Response (Some "TCS") (Some (Fin 100)) (Some ["2025-01-01"; "2025-01-02"])
           None (Some [Fin 101; Fin 102]) (Some (Fin 0.82)).

(** A service that lets three requests run into the timeout and answers
    the fourth. *)
Definition slow_then_simple (n : nat) (r : request) : reply :=
  if (n <? 3)%nat then Rejected (timed_out r) else Replied (Some forecast).

End Prediction.

(** ** The tables of the demo page *)

Module Display.

Import JS Storage Ledger.

(** [getMarketPrice]: [lastTx ? lastTx.price : 0]; [None] is the [null]
    that JSON holds for a price that was not finite. *)
Definition getMarketPrice (tkr : string) (transactions : list transaction)
  : option Q :=
  match lastTx tkr transactions with
  | Some tx => tx_price tx
  | None => Some 0%Q
  end.

(** [tx.type === 'BUY'] *)
Definition is_buy (tx : transaction) : bool :=
  match tx_type tx with
  | BUY => true
  | SELL => false
  end.

(** [transactions.filter((tx) => tx.ticker === ticker && tx.type === 'BUY')] *)
Definition buys (tkr : string) (transactions : list transaction)
  : list transaction :=
  filter (fun tx => tx_ticker tx = tkr /\ is_buy tx = true) transactions.

(** [buys.reduce((sum, tx) => sum + tx.quantity, 0)] *)
Definition totalQty (l : list transaction) : Z :=
  foldl (fun sum tx => sum + tx_quantity tx) 0 l.

(** [buys.reduce((sum, tx) => sum + tx.quantity * tx.price, 0)]; in a
    product [null] counts as [0]. *)
Definition totalCost (l : list transaction) : Q :=
  foldl (fun sum tx => sum + inject_Z (tx_quantity tx) * default 0 (tx_price tx))%Q
        0%Q l.

(** [getAvgPrice]: [totalQty > 0 ? totalCost / totalQty : 0].  The
    quantities are integers and the recorded prices finite, so the
    result is a rational. *)
Definition getAvgPrice (tkr : string) (transactions : list transaction) : Q :=
  let buys := buys tkr transactions in
  if 0 <? totalQty buys
  then (totalCost buys / inject_Z (totalQty buys))%Q
  else 0%Q.




End Display.

(** ** The watchlist *)

Module Watchlist.

Import JS Storage Ledger.

(** A [Stock] of the front end's types as the [watchlist] record of
    [localStorage] holds it; a number that is not finite is [null] there. *)
Record Stock : Type := MkStock {
  s_ticker : string;
  s_symbol : string;
  s_name : string;
  s_price : option Q;
  s_current_price : option Q;
  s_change : option Q;
  s_change_percent : option Q;
  s_volume : option Q
}.

(** The stock that the button of the widget passes to [addToWatchlist]. *)
Definition watched (prediction : StockPrediction) : Stock :=
  {| s_ticker := p_ticker prediction;
     s_symbol := p_ticker prediction;
     s_name := p_ticker prediction;
     s_price := json_number (p_current_price prediction);
     s_current_price := json_number (p_current_price prediction);
     s_change := Some 0%Q;
     s_change_percent := Some 0%Q;
     s_volume := Some 0%Q |}.

(** [existingWatchlist.some((item) => item.symbol === symbol)] *)
Definition has_symbol (symbol : string) (existingWatchlist : list Stock) : bool :=
  bool_decide (Exists (fun item => s_symbol item = symbol) existingWatchlist).

(** [checkWatchlist]: the new value of [isInWatchlist]. *)
Definition checkWatchlist (symbol : string) (item : stored (list Stock)) : bool :=
  match JSON_parse (or_else item (Reads [])) with
  | Some existingWatchlist => has_symbol symbol existingWatchlist
  | None => false
  end.

(** What [addToWatchlist] of the widget reports. *)
Inductive added : Type :=
| AddedToWatchlist (symbol : string)
| AlreadyInWatchlist (symbol : string)
| FailedToAdd.

(** [addToWatchlist] of the widget: the report, [isInWatchlist] and the
    record of the store. *)
Definition addToWatchlist (stock : Stock) (isInWatchlist : bool)
    (item : stored (list Stock)) : added * bool * stored (list Stock) :=
  match JSON_parse (or_else item (Reads [])) with
  | Some existingWatchlist =>
      if negb (has_symbol (s_symbol stock) existingWatchlist)
      then (AddedToWatchlist (s_symbol stock), true,
            Reads (existingWatchlist ++ [stock]))
      else (AlreadyInWatchlist (s_symbol stock), isInWatchlist, item)
  | None => (FailedToAdd, isInWatchlist, item)
  end.

(** The state of the watchlist page. *)
Record page : Type := Page {
  watchlist : list Stock;
  selectedTicker : option string;
  load_failed : bool
}.

(** The page as it mounts. *)
Definition blank_page : page := Page [] None false.

(** The mount effect of the page:
    [if (savedWatchlist) setWatchlist(JSON.parse(savedWatchlist))]. *)
Definition loadWatchlist (item : stored (list Stock)) (pg : page) : page :=
  match item with
  | Null | Empty => pg
  | _ =>
      match JSON_parse item with
      | Some parsedWatchlist => Page parsedWatchlist (selectedTicker pg) (load_failed pg)
      | None => Page (watchlist pg) (selectedTicker pg) true
      end
  end.

(** [handleRemoveStock]: the page and the record it writes. *)
Definition handleRemoveStock (tkr : string) (pg : page)
  : page * stored (list Stock) :=
  let updatedWatchlist := filter (fun stock => s_ticker stock <> tkr) (watchlist pg) in
  (Page updatedWatchlist
        (if bool_decide (selectedTicker pg = Some tkr) then None else selectedTicker pg)
        (load_failed pg),
   Reads updatedWatchlist).

End Watchlist.

(** ** The chart of a prediction *)

Module Chart.

Import JS Ledger.

(** [a / b]; a zero divisor is taken as [+0]. *)
Definition div (a b : num) : num :=
  match a, b with
  | NaN, _ | _, NaN => NaN
  | Fin x, Fin y =>
      if Qeq_bool y 0
      then match Qcompare x 0 with Gt => PInf | Lt => NInf | Eq => NaN end
      else Fin (x / y)
  | Fin _, _ => Fin 0
  | _, Fin y =>
      match sign a, Qcompare y 0 with
      | Gt, Lt | Lt, (Gt | Eq) => NInf
      | _, _ => PInf
      end
  | _, _ => NaN
  end.

(** A point of [chartData]. *)
Record point : Type := Point {
  pt_date : string;
  pt_price : num;
  pt_change : num;
  pt_changePercentage : num
}.

(** The point for the date at [index]. *)
Definition dayPoint (prediction : StockPrediction) (index : nat) (date : string)
  : point :=
  match p_prediction_prices prediction !! index with
  | None => Point date (p_current_price prediction) (Fin 0) (Fin 0)
  | Some price =>
      let change := sub price (p_current_price prediction) in
      let changePercentage :=
        mul (div change (p_current_price prediction)) (Fin 100) in
      Point date price change changePercentage
  end.

(** What the component draws. *)
Record drawn : Type := Drawn {
  chartData : list point;
  finalPrice : option num;
  finalChange : option num;
  finalChangePercentage : option num
}.

(** [StockPredictionChart]: [None] is the card that reports a prediction
    error. *)
Definition StockPredictionChart (prediction : StockPrediction) : option drawn :=
  if (length (p_prediction_dates prediction) =? 0)%nat
     || (length (p_prediction_prices prediction) =? 0)%nat
  then None
  else
    let chartData := imap (dayPoint prediction) (p_prediction_dates prediction) in
    let chartData :=
      Point "Today" (p_current_price prediction) (Fin 0) (Fin 0) :: chartData in
    let finalPrice := last (p_prediction_prices prediction) in
    let finalChange := flip sub (p_current_price prediction) <$> finalPrice in
    let finalChangePercentage :=
      (fun change => mul (div change (p_current_price prediction)) (Fin 100))
        <$> finalChange in
    Some (Drawn chartData finalPrice finalChange finalChangePercentage).

End Chart.

(** ** The form of the widget *)

Module Form.

Import JS Ledger Prediction.

(** [s.trimEnd()], for the ASCII range. *)
Fixpoint trim_end (s : string) : string :=
  match s with
  | String c r =>
      match trim_end r with
      | EmptyString => if is_white c then EmptyString else String c EmptyString
      | r' => String c r'
      end
  | EmptyString => EmptyString
  end.

(** [s.trim()] *)
Definition trim (s : string) : string := trim_end (trim_start s).


(** How [handleSubmit] ends: with the request to enter a symbol, or with
    the symbol set and the view that the fetch leaves. *)
Inductive submitted : Type :=
| PleaseEnterSymbol
| Asked (tkr : string) (v : view).

(** [handleSubmit] *)
Definition handleSubmit (server : nat -> request -> reply)
    (inputTicker : string) (v : view) : M submitted :=
  match trim inputTicker with
  | EmptyString => mret PleaseEnterSymbol
  | _ =>
      let symbol := toUpperCase (trim inputTicker) in
      v ← fetchPrediction server symbol v;
      mret (Asked symbol v)
  end.

(** The time that a log spends waiting, in ms. *)
Definition waited (l : list event) : Z :=
  foldr (fun e total => match e with Slept ms => ms + total | Sent _ => total end) 0 l.

(** What the log of [s'] holds beyond that of [s]. *)
Definition since (s s' : net) : list event := drop (length (log s)) (log s').

(** The exchange that [fetchPrediction] asks for a symbol. *)
Definition exchange_of (symbol : string) : string :=
  if bool_decide (toUpperCase symbol ∈ usStocks) then "" else "NSE".

End Form.

(** * Properties *)

Import JS Storage Ledger.

(** ** Portfolio entries *)

Lemma findIndex_cons tkr item p :
  findIndex tkr (item :: p) =
  if decide (h_ticker item = tkr) then Some 0%nat else S <$> findIndex tkr p.
Proof.
  unfold findIndex. simpl. case_decide; [done|].
  destruct (list_find _ p) as [[i x]|]; done.
Qed.

Lemma held_cons tkr item p :
  held tkr (item :: p) =
  if decide (h_ticker item = tkr) then h_quantity item else held tkr p.
Proof.
  unfold held. rewrite findIndex_cons. case_decide; [done|].
  destruct (findIndex tkr p); done.
Qed.

Lemma findIndex_None tkr p :
  findIndex tkr p = None <-> tkr ∉ h_ticker <$> p.
Proof.
  induction p as [|item p IH]; simpl.
  - split; [intros _; apply not_elem_of_nil | done].
  - rewrite findIndex_cons, not_elem_of_cons. case_decide.
    + split; [done | intros [Hne _]; congruence].
    + destruct (findIndex tkr p); simpl.
      * split; [done|]. intros [_ Hp]. by apply IH in Hp.
      * split; [|done]. intros _. split; [congruence | by apply IH].
Qed.

Lemma held_absent tkr p : tkr ∉ h_ticker <$> p -> held tkr p = 0.
Proof. intros H. apply findIndex_None in H. unfold held. by rewrite H. Qed.

Lemma net_app tkr txs tx :
  net tkr (txs ++ [tx]) =
  net tkr txs + (if decide (tx_ticker tx = tkr) then signed tx else 0).
Proof. induction txs as [|x txs IH]; simpl; [lia | rewrite IH; lia]. Qed.

Lemma add_quantity_tickers d i p :
  h_ticker <$> add_quantity d i p = h_ticker <$> p.
Proof.
  revert i. induction p as [|item p IH]; intros [|i]; simpl; try done.
  unfold add_quantity in *. simpl. by rewrite IH.
Qed.

(** Raising the entry of [tkr] moves the holding of [tkr] and no other. *)
Lemma held_add_quantity tkr d i p t :
  findIndex tkr p = Some i ->
  held t (add_quantity d i p) = held t p + (if decide (tkr = t) then d else 0).
Proof.
  revert i. induction p as [|item p IH]; intros i; [done|].
  rewrite findIndex_cons. destruct (decide (h_ticker item = tkr)) as [Hi|Hi].
  - intros [= <-]. unfold add_quantity. simpl. rewrite !held_cons. simpl.
    subst tkr. destruct (decide (h_ticker item = t)); lia.
  - destruct (findIndex tkr p) as [j|] eqn:Hj; [|done]. simpl. intros [= <-].
    specialize (IH j eq_refl).
    unfold add_quantity in *. simpl. rewrite !held_cons.
    destruct (decide (h_ticker item = t)) as [Ht|Ht]; [|done].
    rewrite decide_False by congruence. lia.
Qed.

Lemma held_push tkr quantity p t :
  findIndex tkr p = None ->
  held t (p ++ [Holding tkr quantity]) =
  held t p + (if decide (tkr = t) then quantity else 0).
Proof.
  induction p as [|item p IH]; simpl.
  - intros _. rewrite held_cons. simpl. unfold held. simpl.
    destruct (decide (tkr = t)); lia.
  - rewrite findIndex_cons, !held_cons.
    destruct (decide (h_ticker item = tkr)) as [Hi|Hi]; [done|].
    destruct (findIndex tkr p); [done|]. intros _.
    destruct (decide (h_ticker item = t)) as [Ht|Ht]; [|by apply IH].
    rewrite decide_False by congruence. lia.
Qed.

Lemma take_quantity_cons_S quantity i item p :
  take_quantity quantity (S i) (item :: p) = item :: take_quantity quantity i p.
Proof.
  unfold take_quantity, add_quantity. simpl.
  destruct (_ =? 0); done.
Qed.

Lemma take_quantity_sublist quantity i p :
  sublist (h_ticker <$> take_quantity quantity i p) (h_ticker <$> p).
Proof.
  revert i. induction p as [|item p IH]; intros [|i]; try done.
  - unfold take_quantity, add_quantity. simpl.
    destruct (_ =? 0); simpl; [by apply sublist_cons | done].
  - rewrite take_quantity_cons_S. simpl. by apply sublist_skip.
Qed.

(** Taking from the entry of [tkr], and dropping it at zero, moves the
    holding of [tkr] and no other, when tickers are not repeated. *)
Lemma held_take_quantity tkr quantity i p t :
  NoDup (h_ticker <$> p) ->
  findIndex tkr p = Some i ->
  held t (take_quantity quantity i p) =
  held t p - (if decide (tkr = t) then quantity else 0).
Proof.
  revert i. induction p as [|item p IH]; intros i Hnd; [done|].
  simpl in Hnd. apply NoDup_cons in Hnd as [Hfresh Hnd].
  rewrite findIndex_cons. destruct (decide (h_ticker item = tkr)) as [Hi|Hi].
  - intros [= <-]. subst tkr. unfold take_quantity, add_quantity. simpl.
    destruct (_ =? 0) eqn:E; simpl.
    + apply Z.eqb_eq in E. rewrite held_cons.
      destruct (decide (h_ticker item = t)) as [<-|Ht].
      * rewrite held_absent by done. lia.
      * lia.
    + rewrite !held_cons. simpl. destruct (decide (h_ticker item = t)); lia.
  - destruct (findIndex tkr p) as [j|] eqn:Hj; [|done]. simpl. intros [= <-].
    specialize (IH j Hnd eq_refl).
    rewrite take_quantity_cons_S, !held_cons.
    destruct (decide (h_ticker item = t)) as [Ht|Ht]; [|done].
    rewrite decide_False by congruence. lia.
Qed.

Lemma add_quantity_positive d i p :
  0 < d ->
  Forall (fun item => 0 < h_quantity item) p ->
  Forall (fun item => 0 < h_quantity item) (add_quantity d i p).
Proof.
  intros Hd Hp. revert i.
  induction Hp as [|item p Hitem Hp IH]; intros [|i]; simpl; try done.
  - constructor; [simpl; lia | done].
  - constructor; [done | apply IH].
Qed.

Lemma take_quantity_positive tkr quantity i p :
  findIndex tkr p = Some i ->
  quantity <= held tkr p ->
  Forall (fun item => 0 < h_quantity item) p ->
  Forall (fun item => 0 < h_quantity item) (take_quantity quantity i p).
Proof.
  intros Hi Hq Hp. revert i Hi Hq.
  induction Hp as [|item p Hitem Hp IH]; intros i; [done|].
  rewrite findIndex_cons, held_cons.
  destruct (decide (h_ticker item = tkr)) as [Ht|Ht].
  - intros [= <-] Hq. unfold take_quantity, add_quantity. simpl.
    destruct (_ =? 0) eqn:E; simpl; [done|].
    apply Z.eqb_neq in E. constructor; [simpl; lia | done].
  - destruct (findIndex tkr p) as [j|] eqn:Hj; [|done]. simpl.
    intros [= <-] Hq. rewrite take_quantity_cons_S.
    constructor; [done | by apply IH].
Qed.

Lemma consistent_settled tkr type quantity price now st :
  consistent st ->
  allowed tkr type quantity price st ->
  consistent (settled tkr type quantity price now st).
Proof.
  intros (Hnd & Hpos & Hq) [Hquantity Hcheck].
  unfold settled. split_and!; simpl.
  - destruct type, (findIndex tkr _) as [i|] eqn:Hi; try done.
    + by rewrite add_quantity_tickers.
    + rewrite fmap_app. simpl. apply NoDup_app.
      split_and!; [done| |apply NoDup_singleton].
      intros x Hx ->%list_elem_of_singleton. by apply findIndex_None in Hi.
    + eapply sublist_NoDup; [done | apply take_quantity_sublist].
  - destruct type, (findIndex tkr _) as [i|] eqn:Hi; try done.
    + by apply add_quantity_positive.
    + apply Forall_app. split; [done|]. by repeat constructor.
    + by eapply take_quantity_positive.
  - intros t. rewrite net_app, <- Hq. unfold signed. simpl.
    destruct type, (findIndex tkr _) as [i|] eqn:Hi.
    + by apply held_add_quantity.
    + by apply held_push.
    + rewrite (held_take_quantity tkr) by done. destruct (decide (tkr = t)); lia.
    + unfold held in Hcheck. rewrite Hi in Hcheck. simpl in Hcheck. lia.
Qed.



(** ** What a handler does to a snapshot *)

Lemma load_Some ls st :
  load ls = Some st ->
  parseFloat (or_else (balance_item ls) (Reads (Fin 1000000))) = st_balance st /\
  JSON_parse (or_else (portfolio_item ls) (Reads [])) = Some (st_portfolio st) /\
  JSON_parse (or_else (transactions_item ls) (Reads [])) = Some (st_transactions st).
Proof.
  unfold load. destruct (JSON_parse (or_else (portfolio_item ls) _)); [|done].
  destruct (JSON_parse (or_else (transactions_item ls) _)); [|done].
  by intros [= <-].
Qed.

(** A call of [handleTrade] on a readable store either changes nothing
    or writes the settled snapshot of a trade that passed the checks. *)
Lemma handleTrade_effect prediction type qtyStr now ls st :
  load ls = Some st ->
  snd (handleTrade prediction type qtyStr now ls) = ls /\
  placed (fst (handleTrade prediction type qtyStr now ls)) = None \/
  exists p quantity,
    prediction = Some p /\
    answered qtyStr ≫= parseInt = Some quantity /\
    allowed (p_ticker p) type quantity (p_current_price p) st /\
    handleTrade prediction type qtyStr now ls =
      (Alerted (OrderPlaced type quantity (p_ticker p)),
       written (settled (p_ticker p) type quantity (p_current_price p) now st)).
Proof.
  intros (Hb & Hp & Ht)%load_Some. unfold handleTrade.
  destruct prediction as [p|]; [|by left].
  destruct (answered qtyStr) as [s|] eqn:Hs; [|by left].
  destruct (parseInt s) as [quantity|] eqn:Hq; [|by left].
  destruct (quantity <=? 0) eqn:Hpos; [by left|]. apply Z.leb_gt in Hpos.
  rewrite Hp, Hb. simpl. fold (held (p_ticker p) (st_portfolio st)).
  destruct type.
  - destruct (gt _ _) eqn:Hgt; [by left|]. right. exists p, quantity.
    simpl. rewrite Ht. by split_and!.
  - destruct (quantity >? _) eqn:Hgt; [by left|]. right. exists p, quantity.
    simpl. rewrite Ht. split_and!; try done.
    split; [done|]. simpl. rewrite Z.gtb_ltb in Hgt. lia.
Qed.

(** The same for [handlePortfolioTrade], priced at the last record. *)
Lemma handlePortfolioTrade_effect tkr type qtyStr now st ls :
  snd (handlePortfolioTrade tkr type qtyStr now st ls) = ls /\
  snd (fst (handlePortfolioTrade tkr type qtyStr now st ls)) = st /\
  placed (fst (fst (handlePortfolioTrade tkr type qtyStr now st ls))) = None \/
  exists quantity price,
    answered qtyStr ≫= parseInt = Some quantity /\
    known_price tkr (st_transactions st) = Some price /\
    allowed tkr type quantity (Fin price) st /\
    handlePortfolioTrade tkr type qtyStr now st ls =
      (Alerted (OrderPlaced type quantity tkr),
       settled tkr type quantity (Fin price) now st,
       written (settled tkr type quantity (Fin price) now st)).
Proof.
  unfold handlePortfolioTrade.
  destruct (answered qtyStr) as [s|] eqn:Hs; [|by left].
  destruct (parseInt s) as [quantity|] eqn:Hq; [|by left].
  destruct (quantity <=? 0) eqn:Hpos; [by left|]. apply Z.leb_gt in Hpos.
  destruct (known_price tkr _) as [price|] eqn:Hprice; [|by left].
  fold (held tkr (st_portfolio st)).
  destruct type.
  - destruct (gt _ _) eqn:Hgt; [by left|]. right. exists quantity, price.
    split_and!; try done.
  - destruct (quantity >? _) eqn:Hgt; [by left|].
    destruct (findIndex tkr (st_portfolio st)) as [i|] eqn:Hi; [|by left].
    right. exists quantity, price. unfold settled. rewrite Hi.
    split_and!; try done. split; [done|]. simpl. rewrite Z.gtb_ltb in Hgt. lia.
Qed.



Lemma load_written st : load (written st) = Some st.
Proof. by destruct st. Qed.

Lemma load_initBalance ls : load (initBalance ls) = load ls.
Proof. unfold initBalance. by destruct ls as [[] ? ?]. Qed.

Lemma consistent_seed : consistent (Demo (Fin 1000000) [] []).
Proof. split_and!; simpl; [constructor | constructor | done]. Qed.


Lemma everywhere_seed I : I (Demo (Fin 1000000) [] []) -> everywhere I seed.
Proof. intros HI. split; [by exists (Demo (Fin 1000000) [] []) | done]. Qed.

(** On the demo page a trade without a known price changes nothing, and
    its alert is one of the two that stand for an invalid request. *)
Lemma unknown_price_rejected tkr type qtyStr now st ls :
  known_price tkr (st_transactions st) = None ->
  let r := handlePortfolioTrade tkr type qtyStr now st ls in
  snd (fst r) = st /\ snd r = ls /\
  (is_Some (answered qtyStr) -> rejection (fst (fst r)) = Some InvalidRequest).
Proof.
  intros Hprice. unfold handlePortfolioTrade. rewrite Hprice.
  destruct (answered qtyStr) as [s|]; [|by split_and!; [..|intros []]].
  destruct (parseInt s) as [quantity|]; [|done].
  by destruct (quantity <=? 0).
Qed.

(** On the demo page an oversell changes nothing either way: without a
    known price the alert is the one for the price. *)
Lemma oversell_changes_nothing tkr qtyStr now st ls :
  positive_quantity qtyStr ->
  (forall quantity, answered qtyStr ≫= parseInt = Some quantity ->
                    quantity > held tkr (st_portfolio st)) ->
  let r := handlePortfolioTrade tkr SELL qtyStr now st ls in
  snd (fst r) = st /\ snd r = ls /\ is_Some (rejection (fst (fst r))).
Proof.
  intros (quantity & Hq & Hpos) Hover. specialize (Hover quantity Hq).
  destruct (handlePortfolioTrade_effect tkr SELL qtyStr now st ls)
    as [(Hls & Hst & _) | (quantity' & price & Hq' & _ & [_ Hok] & _)].
  - cbv zeta. split_and!; [done | done |].
    unfold handlePortfolioTrade in *.
    destruct (answered qtyStr) as [s|]; [|done]. simpl in Hq. rewrite Hq in *.
    destruct (quantity <=? 0) eqn:E; [by eexists|].
    destruct (known_price _ _); [|by eexists].
    fold (held tkr (st_portfolio st)).
    destruct (quantity >? _) eqn:G; [by eexists|].
    rewrite Z.gtb_ltb in G. apply Z.ltb_ge in G. unfold held in Hover. lia.
  - rewrite Hq in Hq'. injection Hq' as <-. simpl in Hok. lia.
Qed.

(** ** Invariants of the ledger *)

Section Invariant.

(** An invariant [I] of snapshots that a settled trade keeps when its
    price satisfies [fit], and under which the recorded prices do. *)
Variable I : DemoState -> Prop.
Variable fit : num -> Prop.

Hypothesis settled_keeps :
  forall tkr type quantity price now st,
    I st -> fit price -> allowed tkr type quantity price st ->
    I (settled tkr type quantity price now st).

Hypothesis recorded_fit :
  forall tkr st price,
    I st -> known_price tkr (st_transactions st) = Some price -> fit (Fin price).

Lemma everywhere_step a w :
  quoting fit a -> everywhere I w -> everywhere I (step a w).
Proof.
  intros Hfit [(st & Hload & Hst) Hdemo].
  destruct a; unfold everywhere; cbn [step store demo].
  - split; [|done]. exists st. by rewrite load_initBalance.
  - split; [by exists st|]. intros st' Hst'. congruence.
  - split; [by exists st|]. done.
  - split; [|done].
    destruct (handleTrade_effect prediction type qtyStr now _ _ Hload)
      as [[-> _] | (p & quantity & -> & _ & Hok & ->)]; [by exists st|].
    eexists. split; [apply load_written|]. by apply settled_keeps.
  - destruct (demo w) as [st'|] eqn:Hst'; [|split; [by exists st | by rewrite Hst']].
    specialize (Hdemo st' eq_refl).
    destruct (handlePortfolioTrade_effect tkr type qtyStr now st' (store w))
      as [(Hls & Hsame & _) | (quantity & price & _ & Hprice & Hok & ->)].
    + destruct (handlePortfolioTrade _ _ _ _ _ _) as [[o st''] ls'].
      simpl in *. subst. split; [by exists st|]. simpl. by intros ? [= <-].
    + assert (I (settled tkr type quantity (Fin price) now st')) as Hnew
        by eauto using settled_keeps, recorded_fit.
      split; simpl; [|by intros ? [= <-]].
      eexists. split; [apply load_written | done].
Qed.

Lemma everywhere_run acts w :
  Forall (quoting fit) acts -> everywhere I w -> everywhere I (run acts w).
Proof.
  intros Hfit. revert w.
  induction Hfit as [|a acts Ha Hfit IH]; intros w Hw; [done|].
  simpl. by apply IH, everywhere_step.
Qed.

End Invariant.

Lemma consistent_run acts w :
  everywhere consistent w -> everywhere consistent (run acts w).
Proof.
  apply (everywhere_run consistent (fun _ => True)).
  - intros. by apply consistent_settled.
  - done.
  - apply Forall_forall. intros a _. by destruct a as [| | |[p|] ? ? ?|].
Qed.










Lemma consistent_positive st item :
  consistent st -> item ∈ st_portfolio st -> 0 < h_quantity item.
Proof. intros (_ & Hpos & _) Hin. rewrite Forall_forall in Hpos. by apply Hpos. Qed.

(** C4.  From the seed balance of 1,000,000 a BUY of 10 shares at 2,500
    leaves a balance of 975,000 and the single holding of 10 shares; the
    SELL of the 10 shares at 2,600 leaves 1,001,000 and no holding (on
    the demo page the sale is priced at the last recorded 2,500 and
    leaves 1,000,000 and no holding).  No reachable portfolio keeps an
    entry at quantity zero. *)
Theorem buy_then_sell_scenarios (tkr : string) :
  let a := store (run (scenarioA tkr) seed) in
  let c := store (run (scenarioC tkr) seed) in
  let d := store (run (scenarioA tkr ++ [OpenDemo; DemoTrade tkr SELL (Some "10") "t2"]) seed) in
  (cash a = Fin 975000 /\ holdings a = Some [Holding tkr 10]) /\
  (cash c = Fin 1001000 /\ holdings c = Some []) /\
  (cash d = Fin 1000000 /\ holdings d = Some []) /\
  (forall acts portfolio item,
     holdings (store (run acts seed)) = Some portfolio ->
     item ∈ portfolio -> h_quantity item <> 0).
Proof.
  split_and!.
  - reflexivity.
  - reflexivity.
  - cbn. unfold findIndex. simpl. rewrite decide_True by done. reflexivity.
  - cbn. unfold findIndex. simpl. rewrite decide_True by done. reflexivity.
  - cbn. unfold known_price, lastTx, findIndex. simpl.
    rewrite decide_True by done. simpl. rewrite decide_True by done. reflexivity.
  - cbn. unfold known_price, lastTx, findIndex. simpl.
    rewrite decide_True by done. simpl. rewrite decide_True by done. reflexivity.
  - intros acts portfolio item Hp Hin.
    destruct (consistent_run acts seed (everywhere_seed _ consistent_seed))
      as [(st & Hload & Hst) _].
    apply load_Some in Hload as (_ & Hp' & _). unfold holdings in Hp.
    rewrite Hp' in Hp. injection Hp as <-.
    pose proof (consistent_positive _ _ Hst Hin). lia.
Qed.

Lemma buy_then_sell_scenarios_witness : h_quantity (Holding "TCS" 10) <> 0.
Proof.
  destruct (buy_then_sell_scenarios "TCS") as (_ & _ & _ & Hpositive).
  apply (Hpositive (scenarioA "TCS") [Holding "TCS" 10]);
    [reflexivity | by left].
Defined.

(** ** Invalid requests and malformed stores *)




(** C9, as stated, fails: a stored balance that is not a number loads as
    NaN, and stored holdings that are not valid JSON make the mount
    effect of the demo page throw. *)
Lemma malformed_store_is_not_seed :
  load (LocalStorage Junk Null Null) = Some (Demo NaN [] []) /\
  cash (LocalStorage Junk Null Null) = NaN /\
  load (LocalStorage Null Junk Null) = None /\
  load (LocalStorage Null Null Junk) = None.
Proof. done. Qed.

(** C9, amended.  Loading returns the seed snapshot when the stored
    records are absent or empty.  A stored balance that is not a number
    is not replaced: it loads as NaN.  The trade handler of the widget
    treats stored holdings that are not valid JSON as absent. *)
Theorem absent_store_is_seed :
  (forall ls,
     absent (balance_item ls) ->
     absent (portfolio_item ls) ->
     absent (transactions_item ls) ->
     load ls = Some (Demo (Fin 1000000) [] []) /\
     cash ls = Fin 1000000 /\ holdings ls = Some [] /\ history ls = Some []) /\
  (forall p t, cash (LocalStorage Junk p t) = NaN) /\
  (forall prediction type qtyStr now b t,
     let junk := LocalStorage b Junk t in
     let none := LocalStorage b Null t in
     let r := handleTrade prediction type qtyStr now junk in
     let r' := handleTrade prediction type qtyStr now none in
     fst r = fst r' /\
     (snd r = snd r' \/ snd r = junk /\ snd r' = none)).
Proof.
  split_and!.
  - intros [b p t]. unfold absent. simpl.
    by intros [-> | ->] [-> | ->] [-> | ->].
  - done.
  - intros prediction type qtyStr now b t. unfold handleTrade. simpl.
    destruct prediction as [p|]; [|by auto].
    destruct (answered qtyStr) as [s|]; [|by auto].
    destruct (parseInt s) as [quantity|]; [|by auto].
    destruct (quantity <=? 0); [by auto|].
    destruct type.
    + destruct (gt _ _); [by auto|]. simpl.
      destruct (JSON_parse (or_else t (Reads []))); by auto.
    + destruct (quantity >? 0); [by auto|]. simpl.
      destruct (JSON_parse (or_else t (Reads []))); by auto.
Qed.

Lemma absent_store_is_seed_witness :
  load seed_store = Some (Demo (Fin 1000000) [] []) /\
  load (LocalStorage Empty Null Empty) = Some (Demo (Fin 1000000) [] []).
Proof.
  split.
  - apply (proj1 absent_store_is_seed seed_store); by left.
  - apply (proj1 absent_store_is_seed (LocalStorage Empty Null Empty));
      [by right | by left | by right].
Defined.

(** ** Normalisation of a prediction *)

Import Prediction.

(** C6, as stated, fails below zero: a negative confidence is outside
    [0,1) and is multiplied by 100 all the same. *)
Lemma negative_confidence_is_scaled :
  let c := Fin (-1 # 2) in
  lt c (Fin 0) = true /\
  same (normalize_confidence (Some c)) (Fin (-50)) /\
  ~ same (normalize_confidence (Some c)) c.
Proof. split_and!; [done | done | by vm_compute]. Qed.

(** C6, amended.  A missing confidence becomes 0; a confidence below 1,
    negative ones included, is multiplied by 100; any other value is
    kept.  So 0.82 becomes 82 and 82 stays 82.  Both paths of the fetch
    apply the rule once. *)
Theorem confidence_normalized :
  normalize_confidence None = Fin 0 /\
  (forall q, (q < 1)%Q -> normalize_confidence (Some (Fin q)) = Fin (q * 100)) /\
  (forall q, (1 <= q)%Q -> normalize_confidence (Some (Fin q)) = Fin q) /\
  (forall c, finite c = false -> normalize_confidence (Some c) = c) /\
  same (normalize_confidence (Some (Fin 0.82))) (Fin 82) /\
  normalize_confidence (Some (Fin 82)) = Fin 82 /\
  (forall symbol data r,
     normalize symbol data = inr r \/ normalize_simplified symbol data = Some r ->
     p_confidence r = normalize_confidence (raw_confidence data)).
Proof.
  split_and!; try done.
  - intros q Hq. unfold normalize_confidence, lt, Qlt_bool.
    destruct (Qle_bool 1 q) eqn:E; [|done].
    apply Qle_bool_iff in E. lra.
  - intros q Hq. unfold normalize_confidence, lt, Qlt_bool.
    apply Qle_bool_iff in Hq. by rewrite Hq.
  - by intros [].
  - intros symbol data r. unfold normalize, normalize_simplified.
    intros [H | H].
    + destruct (_ || _); [done|]. destruct (_ || _); [done|]. by injection H as <-.
    + destruct (_ || _); [|done]. by injection H as <-.
Qed.

Lemma confidence_normalized_witness :
  normalize_confidence (Some (Fin 0.82)) = Fin (0.82 * 100) /\
  normalize_confidence (Some (Fin 1)) = Fin 1.
Proof.
  destruct confidence_normalized as (_ & Hlow & Hhigh & _).
  split; [apply Hlow | apply Hhigh]; done.
Defined.







(** ** The retry policy *)

Lemma attempts_unfold server retries tkr exchange simplify s :
  attempts server retries tkr exchange simplify s =
  let r := Get tkr exchange simplify (if simplify then 5000 else 15000) in
  let s' := Net (S (sent s)) (log s ++ [Sent r]) in
  match received tkr (server (sent s) r) with
  | inr data => (inr data, s')
  | inl err =>
      match retries with
      | O => (inl err, s')
      | S retries =>
          attempts server retries tkr exchange simplify
            (Net (sent s') (log s' ++ [Slept (2000 * (3 - Z.of_nat retries))]))
      end
  end.
Proof.
  destruct retries; simpl; unfold mbind, M_bind, api_get; simpl;
    destruct (received _ _); done.
Qed.

Lemma attempts_sent server retries tkr exchange simplify s :
  (sent s < sent (snd (attempts server retries tkr exchange simplify s))
   <= sent s + S retries)%nat.
Proof.
  revert s. induction retries as [|retries IH]; intros s;
    rewrite attempts_unfold; cbv zeta; destruct (received _ _); simpl; try lia.
  specialize (IH (Net (S (sent s))
    ((log s ++ [Sent (Get tkr exchange simplify (if simplify then 5000 else 15000))])
       ++ [Slept (2000 * (3 - Z.of_nat retries))]))).
  simpl in IH. lia.
Qed.

(** C10, as stated, fails: when the simplified request fails as well it
    is sent three times, with the delays of the loop in between. *)
Lemma simplified_request_is_retried :
  let r := fetchPrediction silent "TCS" (View None None) idle in
  length (simplified (log (snd r))) = 3%nat /\
  drop 5 (log (snd r)) =
    [Sent (Get "TCS" "NSE" true 5000); Slept 4000;
     Sent (Get "TCS" "NSE" true 5000); Slept 6000;
     Sent (Get "TCS" "NSE" true 5000)].
Proof. by vm_compute. Qed.

(** C10, amended.  A call of the client sends at most three requests.
    When the three full requests fail, the second is sent 4000 ms after
    the first failure and the third 6000 ms after the second (2000 ms
    times the number of the attempt to come), and the third error ends
    the call.  If that error is not a timeout the fetch fails with it.
    If it is a timeout the simplified call follows, under the same loop;
    a first simplified answer with a filled price series is accepted and
    nothing more is sent. *)
Theorem retry_policy (server : nat -> request -> reply) (symbol : string)
    (v : view) (e1 e2 e3 : error) :
  symbol <> "" ->
  let exchange := if bool_decide (toUpperCase symbol ∈ usStocks) then "" else "NSE" in
  let full := Get symbol exchange false 15000 in
  let simple := Get symbol "NSE" true 5000 in
  let waited := [Sent full; Slept 4000; Sent full; Slept 6000; Sent full] in
  received symbol (server 0%nat full) = inl e1 ->
  received symbol (server 1%nat full) = inl e2 ->
  received symbol (server 2%nat full) = inl e3 ->
  (forall tkr ex simplify s,
     (sent (snd (predict server tkr ex simplify s)) <= sent s + 3)%nat) /\
  predict server symbol exchange false idle = (inl e3, Net 3 waited) /\
  (includes "timeout" (e_message e3) = false ->
   fetchPrediction server symbol v idle
     = (View None (Some (failure symbol e3)), Net 3 waited)) /\
  (includes "timeout" (e_message e3) = true ->
   forall data,
     server 3%nat simple = Replied (Some data) ->
     chosen_prices data <> [] ->
     exists accepted,
       normalize_simplified symbol (predictionData symbol data) = Some accepted /\
       p_prediction_prices accepted = chosen_prices data /\
       fetchPrediction server symbol v idle
         = (View (Some accepted) None, Net 4 (waited ++ [Sent simple]))).
Proof.
  intros Hsymbol exchange full simple waited H1 H2 H3.
  assert (predict server symbol exchange false idle = (inl e3, Net 3 waited)) as Hpredict.
  { unfold predict, idle.
    rewrite attempts_unfold. cbv zeta. cbn [sent log]. fold full. rewrite H1.
    rewrite attempts_unfold. cbv zeta. cbn [sent log]. fold full. rewrite H2.
    rewrite attempts_unfold. cbv zeta. cbn [sent log]. fold full. by rewrite H3. }
  split_and!.
  - intros tkr ex simplify s. unfold predict.
    pose proof (attempts_sent server 2 tkr ex simplify s). lia.
  - done.
  - intros Hother. unfold fetchPrediction. destruct symbol; [done|].
    fold exchange. unfold mbind, M_bind. rewrite Hpredict, Hother. done.
  - intros Htimeout data Hdata Hprices.
    exists (normalizedData symbol (predictionData symbol data) (chosen_prices data)
              (normalize_confidence (Some (or_zero (raw_confidence data))))).
    assert (normalize_simplified symbol (predictionData symbol data) = Some
      (normalizedData symbol (predictionData symbol data) (chosen_prices data)
         (normalize_confidence (Some (or_zero (raw_confidence data)))))) as Hnorm.
    { unfold normalize_simplified. simpl.
      destruct (chosen_prices data) eqn:E; [done|]. simpl.
      unfold chosen_prices at 1. simpl. by rewrite E. }
    split_and!; [done | done |].
    unfold fetchPrediction. destruct symbol; [done|].
    fold exchange. unfold mbind, M_bind. rewrite Hpredict, Htimeout.
    unfold predict. rewrite attempts_unfold. cbv zeta. cbn [sent log]. fold simple.
    rewrite Hdata. cbn [received]. by rewrite Hnorm.
Qed.

Lemma retry_policy_witness :
  exists accepted,
    p_prediction_prices accepted = [Fin 101; Fin 102] /\
    fetchPrediction slow_then_simple "TCS" (View None None) idle
    = (View (Some accepted) None,
       Net 4 [Sent (Get "TCS" "NSE" false 15000); Slept 4000;
              Sent (Get "TCS" "NSE" false 15000); Slept 6000;
              Sent (Get "TCS" "NSE" false 15000);
              Sent (Get "TCS" "NSE" true 5000)]).
Proof.
  pose (full := Get "TCS" "NSE" false 15000).
  destruct (retry_policy slow_then_simple "TCS" (View None None)
              (timed_out full) (timed_out full) (timed_out full))
    as (_ & _ & _ & Hsimple);
    [done | done | done | done |].
  destruct (Hsimple eq_refl forecast eq_refl) as (accepted & _ & Hprices & Hrun);
    [done|].
  exists accepted. by split.
Defined.

(** * Further properties *)

Import Display Watchlist Chart Form.

(** ** The balance and the transaction log *)








(** ** A purchase undone by a sale *)









(** ** The prices that the demo page shows *)

Lemma lastTx_app tkr txs tx :
  lastTx tkr (txs ++ [tx]) =
  if decide (tx_ticker tx = tkr) then Some tx else lastTx tkr txs.
Proof.
  unfold lastTx. rewrite reverse_app. simpl.
  destruct (decide (tx_ticker tx = tkr)); [done|].
  by destruct (list_find _ (reverse txs)) as [[i y]|].
Qed.

Lemma getMarketPrice_app tkr txs tx :
  getMarketPrice tkr (txs ++ [tx]) =
  if decide (tx_ticker tx = tkr) then tx_price tx else getMarketPrice tkr txs.
Proof.
  unfold getMarketPrice. rewrite lastTx_app.
  by destruct (decide (tx_ticker tx = tkr)).
Qed.

Lemma known_price_market tkr txs price :
  known_price tkr txs = Some price -> getMarketPrice tkr txs = Some price.
Proof.
  unfold known_price, getMarketPrice.
  destruct (match lastTx tkr txs with Some tx => tx_price tx | None => Some 0%Q end)
    as [p|]; [|done].
  destruct (Qeq_bool p 0); [done|]. by intros [= <-].
Qed.

(** X3.  A trade on the demo page, placed or not, changes no market
    price that the page shows: it is recorded at the last price of its
    ticker, which is the market price of that ticker. *)
Theorem demo_trade_keeps_market_prices (tkr : string) (type : side)
    (qtyStr : option string) (now : string) (st : DemoState)
    (ls : localStorage) (t : string) :
  let st' := snd (fst (handlePortfolioTrade tkr type qtyStr now st ls)) in
  getMarketPrice t (st_transactions st') = getMarketPrice t (st_transactions st).
Proof.
  destruct (handlePortfolioTrade_effect tkr type qtyStr now st ls)
    as [(_ & -> & _) | (quantity & price & _ & Hprice & _ & ->)]; [done|].
  simpl. rewrite getMarketPrice_app. simpl.
  destruct (decide (tkr = t)) as [<-|]; [|done].
  symmetry. by apply known_price_market.
Qed.

(** X4.  A trade placed through the widget sets the market price of
    its ticker to the current price of the prediction, as JSON holds it,
    and leaves the market price of every other ticker. *)
Theorem widget_trade_sets_market_price (p : StockPrediction) (type : side)
    (qtyStr : option string) (now : string) (ls : localStorage)
    (st : DemoState) :
  load ls = Some st ->
  let r := handleTrade (Some p) type qtyStr now ls in
  is_Some (placed (fst r)) ->
  exists st',
    load (snd r) = Some st' /\
    forall t,
      getMarketPrice t (st_transactions st') =
      if decide (p_ticker p = t) then json_number (p_current_price p)
      else getMarketPrice t (st_transactions st).
Proof.
  intros Hload r Hplaced. subst r.
  destruct (handleTrade_effect (Some p) type qtyStr now ls st Hload)
    as [[_ Hnone] | (p' & quantity & [= <-] & _ & _ & Hrun)].
  { rewrite Hnone in Hplaced. by destruct Hplaced. }
  rewrite Hrun. eexists. split; [apply load_written|].
  intros t. simpl. by rewrite getMarketPrice_app.
Qed.

Lemma widget_trade_sets_market_price_witness :
  exists st',
    load (store (run (scenarioC "TCS") seed)) = Some st' /\
    getMarketPrice "TCS" (st_transactions st') = Some 2600%Q /\
    getMarketPrice "INFY" (st_transactions st') = Some 0%Q.
Proof.
  destruct (widget_trade_sets_market_price
              (Prediction "TCS" (Fin 2600) [] [] (Fin 0)) SELL (Some "10") "t2"
              (store (run (scenarioA "TCS") seed))
              (Demo (Fin 975000) [Holding "TCS" 10]
                    [Transaction "TCS" BUY 10 (Some 2500%Q) "t1"]))
    as (st' & Hload & Hprice); [reflexivity | by eexists |].
  exists st'. split; [exact Hload|]. split.
  - by rewrite Hprice.
  - by rewrite Hprice.
Defined.

Lemma buys_app tkr txs tx :
  buys tkr (txs ++ [tx]) =
  buys tkr txs ++ (if decide (tx_ticker tx = tkr /\ is_buy tx = true) then [tx] else []).
Proof.
  unfold buys. rewrite filter_app, filter_cons, filter_nil.
  by destruct (decide _).
Qed.

Lemma getAvgPrice_skip tkr txs tx :
  ~ (tx_ticker tx = tkr /\ is_buy tx = true) ->
  getAvgPrice tkr (txs ++ [tx]) = getAvgPrice tkr txs.
Proof.
  intros Hskip. unfold getAvgPrice.
  by rewrite buys_app, decide_False, app_nil_r by done.
Qed.

(** X5.  The average price that the demo page shows for a ticker is
    left as it is by every sale, through the widget (on a store that
    loads) or the demo page, and by every purchase of another ticker on
    the demo page. *)
Theorem sale_keeps_average_prices (t : string) :
  (forall prediction qtyStr now ls st,
     load ls = Some st ->
     exists st',
       load (snd (handleTrade prediction SELL qtyStr now ls)) = Some st' /\
       getAvgPrice t (st_transactions st') = getAvgPrice t (st_transactions st)) /\
  (forall tkr qtyStr now st ls,
     let st' := snd (fst (handlePortfolioTrade tkr SELL qtyStr now st ls)) in
     getAvgPrice t (st_transactions st') = getAvgPrice t (st_transactions st)) /\
  (forall tkr qtyStr now st ls,
     tkr <> t ->
     let st' := snd (fst (handlePortfolioTrade tkr BUY qtyStr now st ls)) in
     getAvgPrice t (st_transactions st') = getAvgPrice t (st_transactions st)).
Proof.
  split_and!.
  - intros prediction qtyStr now ls st Hload.
    destruct (handleTrade_effect prediction SELL qtyStr now ls st Hload)
      as [[-> _] | (p & quantity & _ & _ & _ & ->)]; [by exists st|].
    eexists. split; [apply load_written|]. simpl.
    apply getAvgPrice_skip. simpl. by intros [_ ?].
  - intros tkr qtyStr now st ls.
    destruct (handlePortfolioTrade_effect tkr SELL qtyStr now st ls)
      as [(_ & -> & _) | (quantity & price & _ & _ & _ & ->)]; [done|].
    simpl. apply getAvgPrice_skip. simpl. by intros [_ ?].
  - intros tkr qtyStr now st ls Hne.
    destruct (handlePortfolioTrade_effect tkr BUY qtyStr now st ls)
      as [(_ & -> & _) | (quantity & price & _ & _ & _ & ->)]; [done|].
    simpl. apply getAvgPrice_skip. simpl. by intros [? _].
Qed.

Lemma sale_keeps_average_prices_witness :
  exists st',
    load (store (run (scenarioC "TCS") seed)) = Some st' /\
    (getAvgPrice "TCS" (st_transactions st') == 2500)%Q.
Proof.
  destruct (proj1 (sale_keeps_average_prices "TCS")
              (shown "TCS" (Fin 2600)) (Some "10") "t2"
              (store (run (scenarioA "TCS") seed))
              (Demo (Fin 975000) [Holding "TCS" 10]
                    [Transaction "TCS" BUY 10 (Some 2500%Q) "t1"]) eq_refl)
    as (st' & Hload & Havg).
  exists st'. split; [exact Hload|]. rewrite Havg. by vm_compute.
Defined.

(** ** The average price *)




(** ** The watchlist *)

Lemma has_symbol_elem symbol l :
  has_symbol symbol l = true <-> symbol ∈ s_symbol <$> l.
Proof.
  unfold has_symbol. rewrite bool_decide_eq_true, Exists_exists, list_elem_of_fmap.
  split; intros (x & H1 & H2); exists x; done.
Qed.

Lemma has_symbol_app symbol l stock :
  has_symbol symbol (l ++ [stock]) =
  has_symbol symbol l || bool_decide (s_symbol stock = symbol).
Proof.
  apply eq_true_iff_eq.
  rewrite orb_true_iff, !has_symbol_elem, bool_decide_eq_true, fmap_app, elem_of_app.
  simpl. rewrite list_elem_of_singleton. split; intros [?|?]; auto.
Qed.

(** X7.  When the watchlist record can be read, [addToWatchlist] never
    fails, [checkWatchlist] then finds the symbol of the stock, a report
    that the stock was added comes with [isInWatchlist] set, and adding
    the stock once more reports that it is already there and changes
    nothing. *)
Theorem added_stock_is_listed (stock : Stock) (isInWatchlist : bool)
    (item : stored (list Stock)) :
  is_Some (JSON_parse (or_else item (Reads []))) ->
  let '(report, isInWatchlist', item') := addToWatchlist stock isInWatchlist item in
  report <> FailedToAdd /\
  checkWatchlist (s_symbol stock) item' = true /\
  (report = AddedToWatchlist (s_symbol stock) -> isInWatchlist' = true) /\
  addToWatchlist stock isInWatchlist' item'
    = (AlreadyInWatchlist (s_symbol stock), isInWatchlist', item').
Proof.
  intros [l Hl]. unfold addToWatchlist. rewrite Hl.
  destruct (has_symbol (s_symbol stock) l) eqn:Hhas; simpl.
  - unfold checkWatchlist. rewrite Hl, Hhas. by split_and!.
  - unfold checkWatchlist. simpl.
    rewrite has_symbol_app, bool_decide_eq_true_2, orb_true_r by done. by split_and!.
Qed.

Lemma added_stock_is_listed_witness :
  let stock := watched (Prediction "TCS" (Fin 2500) [] [] (Fin 82)) in
  checkWatchlist "TCS" (snd (addToWatchlist stock false Null)) = true.
Proof.
  intros stock.
  pose proof (added_stock_is_listed stock false Null (ex_intro _ [] eq_refl)) as H.
  destruct (addToWatchlist stock false Null) as [[report isIn] item'].
  exact (proj1 (proj2 H)).
Defined.

(** X8.  [addToWatchlist] keeps the symbols of the watchlist record
    distinct: it leaves a readable record readable, keeps the stocks it
    held in their order, and appends at most one stock. *)
Theorem symbols_stay_distinct (stock : Stock) (isInWatchlist : bool)
    (item : stored (list Stock)) (l : list Stock) :
  JSON_parse (or_else item (Reads [])) = Some l ->
  NoDup (s_symbol <$> l) ->
  exists l',
    JSON_parse (or_else (snd (addToWatchlist stock isInWatchlist item)) (Reads []))
      = Some l' /\
    NoDup (s_symbol <$> l') /\
    l `prefix_of` l' /\
    (length l' <= S (length l))%nat.
Proof.
  intros Hl Hnd. unfold addToWatchlist. rewrite Hl.
  destruct (has_symbol (s_symbol stock) l) eqn:Hhas; simpl.
  - exists l. split_and!; [done | done | done | lia].
  - exists (l ++ [stock]). split_and!; [done | | by apply prefix_app_r |].
    + rewrite fmap_app. apply NoDup_app. split_and!; [done | | apply NoDup_singleton].
      intros x Hx ->%list_elem_of_singleton.
      apply has_symbol_elem in Hx. congruence.
    + rewrite length_app. simpl. lia.
Qed.

Lemma symbols_stay_distinct_witness :
  let stock := watched (Prediction "TCS" (Fin 2500) [] [] (Fin 82)) in
  exists l',
    JSON_parse (or_else (snd (addToWatchlist stock true (Reads [stock]))) (Reads []))
      = Some l' /\
    NoDup (s_symbol <$> l').
Proof.
  intros stock.
  destruct (symbols_stay_distinct stock true (Reads [stock]) [stock] eq_refl)
    as (l' & Hl' & Hnd & _); [apply NoDup_singleton|].
  by exists l'.
Defined.

(** X9.  Adding the stock of a prediction through the widget, loading
    the watchlist page and removing the ticker there gives back the
    watchlist as it was, on the page and in the store, when no stock of
    the list had that ticker or symbol. *)
Theorem remove_undoes_add (prediction : StockPrediction) (isInWatchlist : bool)
    (item : stored (list Stock)) (l : list Stock) (pg : page) :
  JSON_parse (or_else item (Reads [])) = Some l ->
  has_symbol (p_ticker prediction) l = false ->
  Forall (fun stock => s_ticker stock <> p_ticker prediction) l ->
  let added := addToWatchlist (watched prediction) isInWatchlist item in
  let loaded := loadWatchlist (snd added) pg in
  let removed := handleRemoveStock (p_ticker prediction) loaded in
  fst (fst added) = AddedToWatchlist (p_ticker prediction) /\
  watchlist loaded = l ++ [watched prediction] /\
  watchlist (fst removed) = l /\
  snd removed = Reads l.
Proof.
  intros Hl Hhas Hother. unfold addToWatchlist. rewrite Hl. simpl. rewrite Hhas.
  simpl. unfold handleRemoveStock. simpl.
  rewrite filter_app, filter_cons, filter_nil.
  rewrite decide_False by (simpl; tauto).
  rewrite app_nil_r.
  assert (filter (fun stock => s_ticker stock <> p_ticker prediction) l = l) as ->.
  { clear Hl Hhas. induction Hother as [|x l Hx Hl IH]; [done|].
    by rewrite filter_cons, decide_True, IH. }
  done.
Qed.

Lemma remove_undoes_add_witness :
  let infy := watched (Prediction "INFY" (Fin 1500) [] [] (Fin 70)) in
  let tcs := Prediction "TCS" (Fin 2500) [] [] (Fin 82) in
  snd (handleRemoveStock "TCS"
         (loadWatchlist (snd (addToWatchlist (watched tcs) false (Reads [infy])))
                        blank_page))
  = Reads [infy].
Proof.
  intros infy tcs.
  destruct (remove_undoes_add tcs false (Reads [infy]) [infy] blank_page)
    as (_ & _ & _ & Hstore); [done | done | by repeat constructor |].
  exact Hstore.
Defined.

(** X10.  [handleRemoveStock] writes the list that the page holds, not
    the record of the store: a stock that the widget added after the page
    had loaded is not in the record that a removal on the page writes. *)
Theorem removal_writes_the_page_list (stock : Stock) (isInWatchlist : bool)
    (item : stored (list Stock)) (l : list Stock) (tkr : string) :
  JSON_parse item = Some l ->
  has_symbol (s_symbol stock) l = false ->
  let pg := loadWatchlist item blank_page in
  let added := addToWatchlist stock isInWatchlist item in
  let removed := handleRemoveStock tkr pg in
  checkWatchlist (s_symbol stock) (snd added) = true /\
  checkWatchlist (s_symbol stock) (snd removed) = false.
Proof.
  intros Hl Hhas. destruct item as [| |l'|]; try done. injection Hl as ->.
  simpl. split.
  - unfold addToWatchlist, checkWatchlist. simpl. rewrite Hhas. simpl.
    by rewrite has_symbol_app, bool_decide_eq_true_2, orb_true_r.
  - unfold checkWatchlist. simpl. apply not_true_is_false.
    intros Hin%has_symbol_elem. apply list_elem_of_fmap in Hin as (x & Hx & Hin).
    apply list_elem_of_filter in Hin as [_ Hin].
    assert (has_symbol (s_symbol stock) l = true); [|congruence].
    apply has_symbol_elem, list_elem_of_fmap. by exists x.
Qed.

Lemma removal_writes_the_page_list_witness :
  let infy := watched (Prediction "INFY" (Fin 1500) [] [] (Fin 70)) in
  let tcs := watched (Prediction "TCS" (Fin 2500) [] [] (Fin 82)) in
  checkWatchlist "TCS"
    (snd (handleRemoveStock "INFY" (loadWatchlist (Reads [infy]) blank_page)))
  = false.
Proof.
  intros infy tcs.
  exact (proj2 (removal_writes_the_page_list tcs false (Reads [infy]) [infy] "INFY"
                  eq_refl eq_refl)).
Defined.

(** ** The chart *)

Lemma chart_drawn pr :
  p_prediction_dates pr <> [] ->
  p_prediction_prices pr <> [] ->
  StockPredictionChart pr =
  Some (Drawn (Point "Today" (p_current_price pr) (Fin 0) (Fin 0)
                 :: imap (dayPoint pr) (p_prediction_dates pr))
              (last (p_prediction_prices pr))
              (flip sub (p_current_price pr) <$> last (p_prediction_prices pr))
              ((fun change => mul (div change (p_current_price pr)) (Fin 100))
                 <$> (flip sub (p_current_price pr) <$> last (p_prediction_prices pr)))).
Proof.
  intros Hd Hp. unfold StockPredictionChart.
  destruct (p_prediction_dates pr); [done|].
  destruct (p_prediction_prices pr); [done|]. done.
Qed.

Lemma chart_inv pr d :
  StockPredictionChart pr = Some d ->
  p_prediction_dates pr <> [] /\ p_prediction_prices pr <> [].
Proof.
  unfold StockPredictionChart.
  destruct (p_prediction_dates pr); [done|].
  destruct (p_prediction_prices pr); [done|]. done.
Qed.

(** X11.  A prediction that [fetchPrediction] accepts from the full
    request is never shown as the error card of the chart: the chart has
    one point for today, at the current price of the payload, and one per
    date, and its final price is the last of the chosen prices. *)
Theorem accepted_prediction_is_drawn (symbol : string) (data : PredictionApiResponse)
    (pr : StockPrediction) :
  normalize symbol data = inr pr ->
  exists d today,
    StockPredictionChart pr = Some d /\
    length (chartData d) = S (length (default [] (raw_prediction_dates data))) /\
    head (chartData d) = Some today /\
    pt_date today = "Today" /\
    raw_current_price data = Some (pt_price today) /\
    last (chosen_prices data) = finalPrice d /\
    is_Some (finalPrice d).
Proof.
  unfold normalize. intros H.
  destruct (_ || _ || negb (bool_decide (is_Some (raw_current_price data)))) eqn:Hg;
    [done|].
  apply orb_false_iff in Hg as [_ Hc]. apply negb_false_iff, bool_decide_eq_true in Hc.
  destruct Hc as [c Hc].
  destruct (_ || _) eqn:Hl in H; [done|].
  apply orb_false_iff in Hl as [Hp Hd].
  apply Nat.eqb_neq in Hp, Hd.
  injection H as <-.
  rewrite chart_drawn; simpl.
  - eexists _, _. split; [reflexivity|]. simpl. split_and!; try done.
    + by rewrite length_imap.
    + by rewrite Hc.
    + apply last_is_Some. by intros E; rewrite E in Hp.
  - by intros E; rewrite E in Hd.
  - by intros E; rewrite E in Hp.
Qed.

Lemma accepted_prediction_is_drawn_witness :
  exists pr d,
    normalize "TCS" forecast = inr pr /\
    StockPredictionChart pr = Some d /\ length (chartData d) = 3%nat.
Proof.
  eexists.
  destruct (accepted_prediction_is_drawn "TCS" forecast _ eq_refl)
    as (d & today & Hd & Hlen & _).
  by exists d.
Defined.

Lemma snoc_inv {A} (l : list A) : l <> [] -> exists l' x, l = l' ++ [x].
Proof. destruct l as [|x l' _] using rev_ind; [done | by exists l', x]. Qed.

(** X12.  With as many prices as dates, the last point of the chart
    carries the final price, the final change and the final percentage
    that the header of the chart shows. *)
Theorem chart_ends_at_final_price (pr : StockPrediction) (d : drawn) :
  StockPredictionChart pr = Some d ->
  length (p_prediction_dates pr) = length (p_prediction_prices pr) ->
  exists pt,
    last (chartData d) = Some pt /\
    finalPrice d = Some (pt_price pt) /\
    finalChange d = Some (pt_change pt) /\
    finalChangePercentage d = Some (pt_changePercentage pt).
Proof.
  intros H Hlen. pose proof (chart_inv _ _ H) as [Hd Hp].
  rewrite chart_drawn in H by done. injection H as <-. simpl.
  destruct (snoc_inv _ Hd) as (dates & date & Hdates).
  destruct (snoc_inv _ Hp) as (prices & price & Hprices).
  rewrite Hdates, Hprices, !length_app in Hlen. simpl in Hlen.
  rewrite Hdates, Hprices.
  assert (length dates = length prices) as Hlen' by lia.
  exists (dayPoint pr (length dates) date). split.
  - rewrite imap_app. simpl. rewrite Nat.add_0_r.
    change (?x :: ?l ++ [?y]) with ((x :: l) ++ [y]). by rewrite last_snoc.
  - rewrite last_snoc. unfold dayPoint. rewrite Hprices, Hlen'.
    rewrite list_lookup_middle by done. done.
Qed.

Lemma chart_ends_at_final_price_witness :
  exists d pt,
    StockPredictionChart (Prediction "TCS" (Fin 100) ["d1"; "d2"] [Fin 101; Fin 102] (Fin 82))
      = Some d /\
    last (chartData d) = Some pt /\ finalPrice d = Some (pt_price pt).
Proof.
  eexists. 
  destruct (chart_ends_at_final_price
              (Prediction "TCS" (Fin 100) ["d1"; "d2"] [Fin 101; Fin 102] (Fin 82))
              _ eq_refl eq_refl) as (pt & Hl & Hf & _).
  by exists pt.
Defined.

(** X13.  A date beyond the last price is drawn at the current price
    with a change of 0 and a percentage of 0. *)
Theorem date_without_price_is_flat (pr : StockPrediction) (d : drawn)
    (index : nat) (date : string) :
  StockPredictionChart pr = Some d ->
  p_prediction_dates pr !! index = Some date ->
  (length (p_prediction_prices pr) <= index)%nat ->
  chartData d !! S index = Some (Point date (p_current_price pr) (Fin 0) (Fin 0)).
Proof.
  intros H Hdate Hlen. pose proof (chart_inv _ _ H) as [Hd Hp].
  rewrite chart_drawn in H by done. injection H as <-. simpl.
  rewrite list_lookup_imap, Hdate. simpl. unfold dayPoint.
  by rewrite lookup_ge_None_2.
Qed.

Lemma date_without_price_is_flat_witness :
  exists d, StockPredictionChart (normalizedData "TCS" uneven (chosen_prices uneven) (Fin 82))
            = Some d /\
  chartData d !! 2%nat = Some (Point "2025-01-02" (Fin 100) (Fin 0) (Fin 0)).
Proof.
  eexists. split; [reflexivity|].
  apply (date_without_price_is_flat
           (normalizedData "TCS" uneven (chosen_prices uneven) (Fin 82))
           _ 1 "2025-01-02" eq_refl); [done | simpl; lia].
Defined.

(** X14.  With more prices than dates the chart still has one point
    per date: its last point carries the price at the index of the last
    date, while the header shows the last price of the series. *)
Theorem price_without_date_is_not_drawn (pr : StockPrediction) (d : drawn) :
  StockPredictionChart pr = Some d ->
  (length (p_prediction_dates pr) < length (p_prediction_prices pr))%nat ->
  length (chartData d) = S (length (p_prediction_dates pr)) /\
  finalPrice d = last (p_prediction_prices pr) /\
  exists pt,
    last (chartData d) = Some pt /\
    p_prediction_prices pr !! (length (p_prediction_dates pr) - 1)%nat
      = Some (pt_price pt).
Proof.
  intros H Hlen. pose proof (chart_inv _ _ H) as [Hd Hp].
  rewrite chart_drawn in H by done. injection H as <-. simpl.
  rewrite length_imap. split_and!; [done | done |].
  destruct (snoc_inv _ Hd) as (dates & date & Hdates).
  rewrite Hdates, length_app in Hlen. simpl in Hlen.
  destruct (lookup_lt_is_Some_2 (p_prediction_prices pr) (length dates)) as [price Hprice];
    [lia|].
  exists (dayPoint pr (length dates) date). split.
  - rewrite Hdates, imap_app. simpl. rewrite Nat.add_0_r.
    change (?x :: ?l ++ [?y]) with ((x :: l) ++ [y]). by rewrite last_snoc.
  - rewrite Hdates, length_app. simpl.
    replace (length dates + 1 - 1)%nat with (length dates) by lia.
    unfold dayPoint. by rewrite Hprice.
Qed.

Lemma price_without_date_is_not_drawn_witness :
  exists d pt,
    StockPredictionChart (Prediction "TCS" (Fin 100) ["d1"] [Fin 101; Fin 102] (Fin 82))
      = Some d /\
    last (chartData d) = Some pt /\
    pt_price pt = Fin 101 /\ finalPrice d = Some (Fin 102).
Proof.
  eexists.
  destruct (price_without_date_is_not_drawn
              (Prediction "TCS" (Fin 100) ["d1"] [Fin 101; Fin 102] (Fin 82))
              _ eq_refl) as (_ & Hfinal & pt & Hlast & Hprice); [simpl; lia|].
  exists pt. split_and!; [done | done | | done].
  simpl in Hprice. by injection Hprice.
Defined.

(** X15.  An answer of the client with prices and no dates is turned
    down by the checks of the full request, but accepted from the
    simplified request; the chart then shows its error card for the
    accepted prediction. *)
Theorem simplified_answer_without_dates (symbol : string)
    (data : PredictionApiResponse) :
  chosen_prices data <> [] ->
  default [] (raw_prediction_dates data) = [] ->
  (exists why, normalize symbol (predictionData symbol data) = inl why) /\
  exists pr,
    normalize_simplified symbol (predictionData symbol data) = Some pr /\
    p_prediction_prices pr = chosen_prices data /\
    StockPredictionChart pr = None.
Proof.
  intros Hp Hd. split.
  - unfold normalize. simpl. rewrite Hd.
    destruct (raw_current_price data); simpl.
    + unfold chosen_prices at 1. simpl. rewrite orb_true_r. by eexists.
    + by eexists.
  - unfold normalize_simplified. simpl.
    destruct (chosen_prices data) as [|x l] eqn:Hc; [done|]. simpl.
    eexists. split; [done|]. split.
    + simpl. unfold chosen_prices. simpl. done.
    + unfold StockPredictionChart. simpl. by rewrite Hd.
Qed.

Lemma simplified_answer_without_dates_witness :
  let data := Response (Some "TCS") (Some (Fin 100)) None (Some [Fin 101]) None None in
  exists pr,
    normalize_simplified "TCS" (predictionData "TCS" data) = Some pr /\
    StockPredictionChart pr = None.
Proof.
  intros data.
  destruct (simplified_answer_without_dates "TCS" data) as [_ (pr & H1 & _ & H2)];
    [done | done |].
  by exists pr.
Defined.

(** X16.  With a current price of 0 no point of the chart that has a
    price has a finite percentage: it is NaN or an infinity. *)
Theorem zero_current_price_has_no_percentage (pr : StockPrediction) (d : drawn)
    (c : Q) (index : nat) (date : string) (price : num) :
  StockPredictionChart pr = Some d ->
  p_current_price pr = Fin c -> (c == 0)%Q ->
  p_prediction_dates pr !! index = Some date ->
  p_prediction_prices pr !! index = Some price ->
  exists pt, chartData d !! S index = Some pt /\
             pt_price pt = price /\
             finite (pt_changePercentage pt) = false.
Proof.
  intros H Hc Hz Hdate Hprice. pose proof (chart_inv _ _ H) as [Hd Hp].
  rewrite chart_drawn in H by done. injection H as <-. simpl.
  rewrite list_lookup_imap, Hdate. simpl. eexists. split; [done|].
  unfold dayPoint. rewrite Hprice, Hc. simpl. split; [done|].
  pose proof (proj1 (Qeq_alt c 0) Hz) as Hcmp.
  apply Qeq_bool_iff in Hz.
  destruct price as [x| | |]; unfold sub, neg, add, div, sign; rewrite ?Hz, ?Hcmp;
    try done.
  destruct (Qcompare (x + - c) 0); reflexivity.
Qed.

Lemma zero_current_price_has_no_percentage_witness :
  exists d pt,
    StockPredictionChart (Prediction "TCS" (Fin 0) ["d1"] [Fin 101] (Fin 82)) = Some d /\
    chartData d !! 1%nat = Some pt /\ finite (pt_changePercentage pt) = false.
Proof.
  eexists.
  destruct (zero_current_price_has_no_percentage
              (Prediction "TCS" (Fin 0) ["d1"] [Fin 101] (Fin 82))
              _ 0 0 "d1" (Fin 101) eq_refl)
    as (pt & H1 & _ & H2); try done.
  by exists pt.
Defined.

(** ** The form and the requests of a fetch *)


Lemma trim_start_head s c r : trim_start s = String c r -> is_white c = false.
Proof.
  induction s as [|c' r' IH]; simpl; [done|].
  destruct (is_white c') eqn:Hc; [done|]. by intros [= <- <-].
Qed.

Lemma trim_end_head c r : is_white c = false -> exists r', trim_end (String c r) = String c r'.
Proof. intros Hc. simpl. rewrite Hc. destruct (trim_end r); by eexists. Qed.


Lemma trim_start_fixed c r : is_white c = false -> trim_start (String c r) = String c r.
Proof. intros Hc. simpl. by rewrite Hc. Qed.

Lemma trim_end_idem s : trim_end (trim_end s) = trim_end s.
Proof.
  induction s as [|c r IH]; simpl; [done|].
  destruct (trim_end r) as [|c' r'] eqn:Hr.
  - destruct (is_white c) eqn:Hc; simpl; [done | by rewrite Hc].
  - change (trim_end (String c (String c' r')))
      with (match trim_end (String c' r') with
            | EmptyString => if is_white c then EmptyString else String c EmptyString
            | r'' => String c r''
            end).
    rewrite IH. done.
Qed.

Lemma trim_idem s : trim (trim s) = trim s.
Proof.
  unfold trim. destruct (trim_start s) as [|c r] eqn:Hs; [done|].
  pose proof (trim_start_head _ _ _ Hs) as Hc.
  destruct (trim_end_head c r Hc) as [r' Hr]. rewrite Hr.
  rewrite trim_start_fixed by done. rewrite <- Hr. apply trim_end_idem.
Qed.

Lemma upper_idem c : upper (upper c) = upper c.
Proof. by destruct c as [[] [] [] [] [] [] [] []]. Qed.

Lemma is_white_upper c : is_white (upper c) = is_white c.
Proof. by destruct c as [[] [] [] [] [] [] [] []]. Qed.

Lemma toUpperCase_idem s : toUpperCase (toUpperCase s) = toUpperCase s.
Proof. induction s as [|c r IH]; simpl; [done|]. by rewrite upper_idem, IH. Qed.

Lemma trim_start_upper s : trim_start (toUpperCase s) = toUpperCase (trim_start s).
Proof.
  induction s as [|c r IH]; simpl; [done|].
  rewrite is_white_upper. by destruct (is_white c).
Qed.

Lemma trim_end_upper s : trim_end (toUpperCase s) = toUpperCase (trim_end s).
Proof.
  induction s as [|c r IH]; [done|].
  change (trim_end (toUpperCase (String c r)))
    with (match trim_end (toUpperCase r) with
          | EmptyString => if is_white (upper c) then EmptyString
                           else String (upper c) EmptyString
          | r' => String (upper c) r'
          end).
  rewrite IH, is_white_upper. simpl.
  destruct (trim_end r); simpl; [by destruct (is_white c) | done].
Qed.

Lemma trim_upper s : trim (toUpperCase s) = toUpperCase (trim s).
Proof. unfold trim. by rewrite trim_start_upper, trim_end_upper. Qed.


(** The log of a call of the client grows by one of three traces. *)
Lemma predict_trace server tkr exchange simplify s :
  let r := Get tkr exchange simplify (if simplify then 5000 else 15000) in
  let s' := snd (predict server tkr exchange simplify s) in
  (exists data,
     fst (predict server tkr exchange simplify s) = inr data /\
     sent s' = S (sent s) /\ log s' = log s ++ [Sent r]) \/
  (exists data,
     fst (predict server tkr exchange simplify s) = inr data /\
     sent s' = S (S (sent s)) /\ log s' = log s ++ [Sent r; Slept 4000; Sent r]) \/
  (fst (predict server tkr exchange simplify s)
     = received tkr (server (S (S (sent s))) r) /\
   sent s' = S (S (S (sent s))) /\
   log s' = log s ++ [Sent r; Slept 4000; Sent r; Slept 6000; Sent r]).
Proof.
  intros r s'. subst s'. unfold predict.
  rewrite attempts_unfold. cbv zeta. fold r.
  destruct (received tkr (server (sent s) r)) as [e1|d1]; [|left; by exists d1].
  right. rewrite attempts_unfold. cbv zeta. cbn [sent log]. fold r.
  destruct (received tkr (server (S (sent s)) r)) as [e2|d2].
  - right. rewrite attempts_unfold. cbv zeta. cbn [sent log]. fold r.
    rewrite <- !app_assoc.
    destruct (received tkr (server (S (S (sent s))) r)) as [e3|d3]; done.
  - left. exists d2. rewrite <- !app_assoc. done.
Qed.

Ltac listed := repeat first [apply list_elem_of_here | apply list_elem_of_further].

(** The traces of a fetch. *)
Lemma fetch_trace server symbol v s :
  symbol <> "" ->
  let full := Get symbol (exchange_of symbol) false 15000 in
  let simple := Get symbol "NSE" true 5000 in
  let s' := snd (fetchPrediction server symbol v s) in
  exists new,
    log s' = log s ++ new /\
    (sent s' = sent s + length (requests new))%nat /\
    (new ∈ [[Sent full];
            [Sent full; Slept 4000; Sent full];
            [Sent full; Slept 4000; Sent full; Slept 6000; Sent full]] \/
     (exists err tail,
        received symbol (server (S (S (sent s))) full) = inl err /\
        includes "timeout" (e_message err) = true /\
        new = [Sent full; Slept 4000; Sent full; Slept 6000; Sent full] ++ tail /\
        tail ∈ [[Sent simple];
                [Sent simple; Slept 4000; Sent simple];
                [Sent simple; Slept 4000; Sent simple; Slept 6000; Sent simple]])).
Proof.
  intros Hsymbol full simple s'. subst s'.
  unfold fetchPrediction. destruct symbol as [|c rest] eqn:Hs; [done|].
  cbv beta iota. subst full simple. rewrite <- Hs in *. clear Hs Hsymbol.
  fold (exchange_of symbol).
  set (full := Get symbol (exchange_of symbol) false 15000).
  set (simple := Get symbol "NSE" true 5000).
  unfold mbind, M_bind.
  pose proof (predict_trace server symbol (exchange_of symbol) false s) as Hfull.
  cbv zeta in Hfull. fold full in Hfull.
  destruct (predict server symbol (exchange_of symbol) false s) as [res s1].
  simpl in Hfull.
  destruct Hfull as [(d & -> & Hsent & Hlog) | [(d & -> & Hsent & Hlog) | (Hres & Hsent & Hlog)]].
  - eexists. destruct (normalize symbol d); simpl; rewrite Hsent, Hlog;
      (split_and!; [done | simpl; lia | left; listed]).
  - eexists. destruct (normalize symbol d); simpl; rewrite Hsent, Hlog;
      (split_and!; [done | simpl; lia | left; listed]).
  - destruct res as [err|d].
    + destruct (includes "timeout" (e_message err)) eqn:Htimeout.
      * pose proof (predict_trace server symbol "NSE" true s1) as Hsimple.
        cbv zeta in Hsimple. fold simple in Hsimple.
        destruct (predict server symbol "NSE" true s1) as [res' s2].
        simpl in Hsimple. rewrite Hsent, Hlog in Hsimple.
        assert (exists tail,
                  sent s2 = (sent s + 3 + length (requests tail))%nat /\
                  log s2 = (log s ++ [Sent full; Slept 4000; Sent full; Slept 6000; Sent full])
                             ++ tail /\
                  tail ∈ [[Sent simple];
                          [Sent simple; Slept 4000; Sent simple];
                          [Sent simple; Slept 4000; Sent simple; Slept 6000; Sent simple]])
          as (tail & Hsent2 & Hlog2 & Htail).
        { destruct Hsimple as [(d & _ & H1 & H2) | [(d & _ & H1 & H2) | (_ & H1 & H2)]];
            [exists [Sent simple]
            |exists [Sent simple; Slept 4000; Sent simple]
            |exists [Sent simple; Slept 4000; Sent simple; Slept 6000; Sent simple]];
            (split_and!; [rewrite H1; simpl; lia | exact H2 | listed]). }
        exists ([Sent full; Slept 4000; Sent full; Slept 6000; Sent full] ++ tail).
        split_and!.
        -- destruct res' as [|data]; simpl;
             [|destruct (normalize_simplified symbol data); simpl];
             by rewrite Hlog2, <- app_assoc.
        -- destruct res' as [|data]; simpl;
             [|destruct (normalize_simplified symbol data); simpl];
             rewrite Hsent2; unfold requests; simpl; lia.
        -- right. exists err, tail. by rewrite Hres.
      * eexists. simpl. rewrite Hsent, Hlog.
        split_and!; [done | simpl; lia | left; listed].
    + eexists. destruct (normalize symbol d); simpl; rewrite Hsent, Hlog;
        (split_and!; [done | simpl; lia | left; listed]).
Qed.

Lemma since_app s s' new : log s' = log s ++ new -> since s s' = new.
Proof. intros H. unfold since. by rewrite H, drop_app_length. Qed.

Lemma fetch_nothing server v s : fetchPrediction server "" v s = (v, s).
Proof. done. Qed.

Lemma since_self s : since s s = [].
Proof. unfold since. by rewrite drop_all. Qed.


(** X18.  Submitting the symbol that a submission asked for gives the
    same submission: trimming and upper-casing are idempotent together,
    so that blanks around the input and its case make no difference. *)
Theorem submission_is_normalised (server : nat -> request -> reply)
    (inputTicker : string) (v : view) :
  handleSubmit server (toUpperCase (trim inputTicker)) v
  = handleSubmit server inputTicker v.
Proof.
  unfold handleSubmit.
  rewrite trim_upper, trim_idem, toUpperCase_idem.
  destruct (trim inputTicker); done.
Qed.


(** X20.  A fetch sends at most six requests, at most three of them
    full and at most three simplified, and waits at most 20000 ms between
    them in all. *)
Theorem fetch_is_bounded (server : nat -> request -> reply)
    (symbol : string) (v : view) (s : net) :
  let new := since s (snd (fetchPrediction server symbol v s)) in
  (length (requests new) <= 6)%nat /\
  (length (simplified new) <= 3)%nat /\
  (length (requests new) - length (simplified new) <= 3)%nat /\
  0 <= waited new <= 20000.
Proof.
  intros new. subst new. destruct (decide (symbol = "")) as [->|Hsymbol].
  - rewrite fetch_nothing. simpl. rewrite since_self. simpl. lia.
  - destruct (fetch_trace server symbol v s Hsymbol) as (new & Hlog & Hsent & Hnew).
    rewrite (since_app _ _ _ Hlog).
    destruct Hnew as [Hnew | (err & tail & _ & _ & -> & Htail)].
    + rewrite !elem_of_cons in Hnew.
      destruct Hnew as [-> | [-> | [-> | Hnew]]]; [..| by apply elem_of_nil in Hnew];
        vm_compute; split_and!; (lia || done).
    + rewrite !elem_of_cons in Htail.
      destruct Htail as [-> | [-> | [-> | Htail]]]; [..| by apply elem_of_nil in Htail];
        vm_compute; split_and!; (lia || done).
Qed.

(** X21.  A simplified request is sent only after three full requests
    with their two delays, the third of which failed with a message that
    includes [timeout]; whatever follows these in the log is simplified. *)
Theorem simplified_only_after_timeout (server : nat -> request -> reply)
    (symbol : string) (v : view) (s : net) (r : request) :
  let new := since s (snd (fetchPrediction server symbol v s)) in
  let full := Get symbol (exchange_of symbol) false 15000 in
  r ∈ requests new ->
  g_simplify r = true ->
  take 5 new = [Sent full; Slept 4000; Sent full; Slept 6000; Sent full] /\
  Forall (fun r => g_simplify r = true) (requests (drop 5 new)) /\
  exists err,
    received symbol (server (S (S (sent s))) full) = inl err /\
    includes "timeout" (e_message err) = true.
Proof.
  intros new full. subst new. destruct (decide (symbol = "")) as [->|Hsymbol].
  - rewrite fetch_nothing. simpl. rewrite since_self. simpl.
    by intros ?%elem_of_nil.
  - destruct (fetch_trace server symbol v s Hsymbol) as (new & Hlog & Hsent & Hnew).
    rewrite (since_app _ _ _ Hlog). fold full in Hnew.
    destruct Hnew as [Hnew | (err & tail & Herr & Htimeout & -> & Htail)].
    + intros Hr Hsimple. exfalso.
      rewrite !elem_of_cons in Hnew.
      destruct Hnew as [-> | [-> | [-> | Hnew]]]; [..| by apply elem_of_nil in Hnew];
        simpl in Hr; rewrite ?elem_of_cons in Hr;
        repeat (destruct Hr as [-> | Hr]; [done|]); by apply elem_of_nil in Hr.
    + intros _ _. split_and!; [done | | by exists err].
      rewrite !elem_of_cons in Htail.
      destruct Htail as [-> | [-> | [-> | Htail]]]; [..| by apply elem_of_nil in Htail];
        simpl; by repeat constructor.
Qed.

Lemma simplified_only_after_timeout_witness :
  let full := Get "TCS" "NSE" false 15000 in
  take 5 (since idle (snd (fetchPrediction slow_then_simple "TCS" (View None None) idle)))
  = [Sent full; Slept 4000; Sent full; Slept 6000; Sent full].
Proof.
  intros full.
  destruct (simplified_only_after_timeout slow_then_simple "TCS" (View None None) idle
              (Get "TCS" "NSE" true 5000)) as [Htake _].
  - vm_compute. listed.
  - done.
  - exact Htake.
Defined.

(** ** The answer of the client *)

(** X22.  When one of the three requests of [predict] is answered with
    data and the requests before it failed, [predict] returns the mapping
    of that answer and sends nothing after it. *)
Theorem predict_returns_first_answer (server : nat -> request -> reply)
    (tkr exchange : string) (simplify : bool) (s : net) (k : nat)
    (data : PredictionApiResponse) :
  let r := Get tkr exchange simplify (if simplify then 5000 else 15000) in
  (k < 3)%nat ->
  (forall j, (j < k)%nat ->
             exists err, received tkr (server (sent s + j)%nat r) = inl err) ->
  server (sent s + k)%nat r = Replied (Some data) ->
  fst (predict server tkr exchange simplify s) = inr (predictionData tkr data) /\
  sent (snd (predict server tkr exchange simplify s)) = (sent s + S k)%nat /\
  length (requests (since s (snd (predict server tkr exchange simplify s)))) = S k.
Proof.
  intros r Hk Hfail' Hdata. unfold predict.
  assert (received tkr (server (sent s + k)%nat r) = inr (predictionData tkr data)) as Hgood.
  { by rewrite Hdata. }
  clear Hdata.
  rewrite attempts_unfold. cbv zeta. fold r.
  destruct k as [|k].
  { rewrite Nat.add_0_r in Hgood. rewrite Hgood. simpl. split_and!; [done | lia |].
    by rewrite (since_app s _ [Sent r]). }
  destruct (Hfail' 0%nat) as [e1 H1]; [lia|]. rewrite Nat.add_0_r in H1. rewrite H1.
  rewrite attempts_unfold. cbv zeta. cbn [sent log]. fold r.
  destruct k as [|k].
  { replace (sent s + 1)%nat with (S (sent s)) in Hgood by lia. rewrite Hgood. simpl.
    split_and!; [done | lia |].
    rewrite (since_app s _ [Sent r; Slept 4000; Sent r]); [done|].
    simpl. by rewrite <- !app_assoc. }
  destruct (Hfail' 1%nat) as [e2 H2]; [lia|].
  replace (sent s + 1)%nat with (S (sent s)) in H2 by lia. rewrite H2.
  rewrite attempts_unfold. cbv zeta. cbn [sent log]. fold r.
  destruct k as [|k]; [|lia].
  replace (sent s + 2)%nat with (S (S (sent s))) in Hgood by lia. rewrite Hgood. simpl.
  split_and!; [done | lia |].
  rewrite (since_app s _ [Sent r; Slept 4000; Sent r; Slept 6000; Sent r]); [done|].
  simpl. by rewrite <- !app_assoc.
Qed.

Lemma predict_returns_first_answer_witness :
  fst (predict slow_then_simple "TCS" "NSE" true (Net 2 []))
  = inr (predictionData "TCS" forecast).
Proof.
  apply (predict_returns_first_answer slow_then_simple "TCS" "NSE" true (Net 2 []) 1
           forecast).
  - lia.
  - intros j Hj. assert (j = 0%nat) as -> by lia. by eexists.
  - done.
Defined.




(** X24.  What the checks of the full request make of an answer of the
    client: without a current price the data are invalid, the only way to
    that message, since the client fills in the other fields; with no
    chosen price or no date there are no prediction points; otherwise the
    prediction holds the ticker of the payload or the symbol, the current
    price, the dates, the chosen prices and the normalised confidence. *)
Theorem client_answer_normalized (symbol : string) (data : PredictionApiResponse) :
  normalize symbol (predictionData symbol data) =
  match raw_current_price data with
  | None => inl (InvalidData symbol)
  | Some price =>
      if bool_decide (chosen_prices data = [])
         || bool_decide (default [] (raw_prediction_dates data) = [])
      then inl (NoPredictionPoints symbol)
      else inr (Prediction (ticker_or (raw_ticker data) symbol) price
                           (default [] (raw_prediction_dates data))
                           (chosen_prices data)
                           (normalize_confidence (Some (or_zero (raw_confidence data)))))
  end.
Proof.
  unfold normalize. simpl.
  destruct (raw_current_price data) as [price|] eqn:Hprice; simpl; [|done].
  change (chosen_prices (predictionData symbol data)) with (chosen_prices data).
  destruct (chosen_prices data) as [|x l] eqn:Hprices; simpl; [done|].
  destruct (default [] (raw_prediction_dates data)) as [|d ds] eqn:Hdates; simpl; [done|].
  unfold normalizedData. simpl. rewrite Hprice, Hdates. simpl. f_equal. f_equal.
  unfold ticker_or. destruct (raw_ticker data) as [[|c r]|]; simpl; try done;
    by destruct symbol.
Qed.

(** X25.  The confidence of an answer of the client is never NaN after
    normalisation, and a confidence between 0 and 100 stays between 0 and
    100. *)
Theorem confidence_stays_in_range (raw : option num) :
  let confidence := normalize_confidence (Some (or_zero raw)) in
  confidence <> NaN /\
  forall c, raw = Some (Fin c) -> (0 <= c <= 100)%Q ->
            exists c', confidence = Fin c' /\ (0 <= c' <= 100)%Q.
Proof.
  intros confidence. subst confidence. split.
  - destruct raw as [[x| | |]|]; [|by vm_compute..].
    unfold or_zero, truthy, normalize_confidence.
    destruct (negb (Qeq_bool x 0)); [|by vm_compute].
    by destruct (lt (Fin x) (Fin 1)).
  - intros c -> [Hlo Hhi]. simpl.
    destruct (Qeq_bool c 0) eqn:Hz; simpl.
    + exists (0 * 100)%Q. split; [done|]. lra.
    + unfold Qlt_bool. destruct (Qle_bool 1 c) eqn:Hle; simpl.
      * exists c. split; [done|]. lra.
      * exists (c * 100)%Q. split; [done|].
        assert (~ (1 <= c)%Q) as Hlt.
        { intros H%Qle_bool_iff. congruence. }
        lra.
Qed.

Lemma confidence_stays_in_range_witness :
  exists c', normalize_confidence (Some (or_zero (Some (Fin 0.82)))) = Fin c' /\
             (0 <= c' <= 100)%Q.
Proof.
  destruct (confidence_stays_in_range (Some (Fin 0.82))) as [_ H].
  apply (H 0.82%Q eq_refl). split; by vm_compute.
Defined.
